(** * aws-ci-cleaner, package [azure]: the two reapers

    A shallow embedding of [pkg/cleaner/azure/resourcegroup.go] and
    [pkg/cleaner/azure/delegatedns.go].

    The two Go functions [cleanResourceGroup] and [cleanDelegateDNSRecords]
    are sequential loops over a listing; each iteration talks to the Azure
    SDK clients, to a DNS resolver and to the logger.  Here

    - every remote call and every log line is an [Event]; a computation
      returns its value together with the events it emitted, in order
      (a writer monad [M]);
    - the collaborators (SDK clients, resolver, [microerror.Mask], the
      [fmt] verbs and the time formatter) are not part of the package: they
      are the fields of [Collaborators] and of [Cleaner];
    - a listing iterator is the list of the values it yields;
    - Go's [(value, err)] results are pairs [value * option error]. *)

From Stdlib Require Import String Ascii List Bool ZArith Lia.
Import ListNotations.
Open Scope string_scope.

(** ** Strings: the functions of Go's [strings] package the code calls *)

Module strings.

(** [strings.HasPrefix(s, prefix)] *)
Definition HasPrefix (s prefix : string) : bool := String.prefix prefix s.

(** [strings.Contains(s, substr)] *)
Fixpoint Contains (s substr : string) : bool :=
  String.prefix substr s ||
  match s with
  | EmptyString => false
  | String _ s' => Contains s' substr
  end.

End strings.

(** ** Regular expressions: the part of Go's [regexp] the code uses

    [regexp.MustCompile] turns the pattern into a syntax tree and
    [re.Match(b)] reports whether the byte slice [b] contains a match of it
    (an unanchored search; [^] and [$] are the empty-width assertions
    "beginning of text" and "end of text", and [.] is any character but
    newline).  The pattern of [isCIRecord] is ASCII and every literal that
    follows [.*] in it is an ASCII byte, so matching byte by byte agrees
    with matching rune by rune. *)

Module regexp.

Inductive Regexp : Type :=
| NoMatch                          (** matches nothing *)
| EmptyMatch                       (** matches the empty string *)
| Literal (c : ascii)
| AnyCharNotNL                     (** [.] *)
| BeginText                        (** [^] *)
| EndText                          (** [$] *)
| Concat (r1 r2 : Regexp)
| Alternate (r1 r2 : Regexp)       (** [r1|r2] *)
| Star (r : Regexp).               (** [r*] *)

Definition newline : ascii := "010"%char.

(** A literal string, as the concatenation of its characters. *)
Fixpoint Lit (s : string) : Regexp :=
  match s with
  | EmptyString => EmptyMatch
  | String c s' => Concat (Literal c) (Lit s')
  end.

(** Does [r] match the empty string here?  [atBegin] and [atEnd] say
    whether the position is the beginning, the end of the text. *)
Fixpoint nullable (atBegin atEnd : bool) (r : Regexp) : bool :=
  match r with
  | NoMatch => false
  | EmptyMatch => true
  | Literal _ => false
  | AnyCharNotNL => false
  | BeginText => atBegin
  | EndText => atEnd
  | Concat r1 r2 => nullable atBegin atEnd r1 && nullable atBegin atEnd r2
  | Alternate r1 r2 => nullable atBegin atEnd r1 || nullable atBegin atEnd r2
  | Star _ => true
  end.

(** What is left of [r] to match once the character [c] was read. *)
Fixpoint deriv (atBegin : bool) (c : ascii) (r : Regexp) : Regexp :=
  match r with
  | NoMatch | EmptyMatch | BeginText | EndText => NoMatch
  | Literal a => if Ascii.eqb a c then EmptyMatch else NoMatch
  | AnyCharNotNL => if Ascii.eqb c newline then NoMatch else EmptyMatch
  | Concat r1 r2 =>
      if nullable atBegin false r1
      then Alternate (Concat (deriv atBegin c r1) r2) (deriv atBegin c r2)
      else Concat (deriv atBegin c r1) r2
  | Alternate r1 r2 => Alternate (deriv atBegin c r1) (deriv atBegin c r2)
  | Star r1 => Concat (deriv atBegin c r1) (Star r1)
  end.

(** Does [r] match a prefix of the rest [b] of the text? *)
Fixpoint matchPrefix (atBegin : bool) (r : Regexp) (b : list ascii) : bool :=
  match b with
  | [] => nullable atBegin true r
  | c :: b' => nullable atBegin false r || matchPrefix false (deriv atBegin c r) b'
  end.

(** Does [r] match somewhere in the rest [b] of the text? *)
Fixpoint search (atBegin : bool) (r : Regexp) (b : list ascii) : bool :=
  matchPrefix atBegin r b ||
  match b with
  | [] => false
  | _ :: b' => search false r b'
  end.

(** [re.Match(b)] *)
Definition Match (re : Regexp) (b : list ascii) : bool := search true re b.

(** The meaning of a pattern: [Matches pre m post r] says that [r]
    matches the piece [m] of the text [pre ++ m ++ post]. *)
Inductive Matches : list ascii -> list ascii -> list ascii -> Regexp -> Prop :=
| MEmpty pre post : Matches pre [] post EmptyMatch
| MLiteral pre post c : Matches pre [c] post (Literal c)
| MAny pre post c : c <> newline -> Matches pre [c] post AnyCharNotNL
| MBegin post : Matches [] [] post BeginText
| MEnd pre : Matches pre [] [] EndText
| MConcat pre m1 m2 post r1 r2 :
    Matches pre m1 (m2 ++ post) r1 ->
    Matches (pre ++ m1) m2 post r2 ->
    Matches pre (m1 ++ m2) post (Concat r1 r2)
| MAltL pre m post r1 r2 : Matches pre m post r1 -> Matches pre m post (Alternate r1 r2)
| MAltR pre m post r1 r2 : Matches pre m post r2 -> Matches pre m post (Alternate r1 r2)
| MStarNil pre post r : Matches pre [] post (Star r)
| MStarApp pre m1 m2 post r :
    Matches pre m1 (m2 ++ post) r ->
    Matches (pre ++ m1) m2 post (Star r) ->
    Matches pre (m1 ++ m2) post (Star r).

(** Is the position at an edge of the text: nothing before, nothing after. *)
Definition isEmpty {A} (l : list A) : bool :=
  match l with [] => true | _ :: _ => false end.

(** The text [b] contains a match of [re]. *)
Definition ContainsMatch (re : Regexp) (b : list ascii) : Prop :=
  exists pre m post, b = (pre ++ m ++ post)%list /\ Matches pre m post re.

End regexp.

(** ** The SDK's data, as far as the code reads it *)

Module resources.
(** [resources.Group]: only [*group.Name] is read. *)
Record Group : Type := { Name : string }.
End resources.

Module dns.
(** [dns.RecordSet]: [*dnsRecord.Name] and [*dnsRecord.Etag] are read. *)
Record RecordSet : Type := { Name : string; Etag : string }.

(** [dns.RecordType]; the code only uses [dns.NS]. *)
Inductive RecordType : Type := A | AAAA | CNAME | MX | NS | PTR | SOA | SRV | TXT.
End dns.

Module http.
Definition StatusNotFound : Z := 404.

(** [http.Response]: only [StatusCode] is read. *)
Record Response : Type := { StatusCode : Z }.
End http.

Module autorest.
(** Go's [autorest.Response]: it embeds a [*http.Response], the field
    [Response], which may be nil. *)
Record Resp : Type := { Response : option http.Response }.
End autorest.

(** ** Constants *)

(** [time.Minute], in nanoseconds ([time.Duration] is an int64 count of
    nanoseconds). *)
Definition Minute : Z := 60 * 1000000000.

(** [gracePeriod = 90 * time.Minute] *)
Definition gracePeriod : Z := 90 * Minute.

Definition dnsFailureError : string := "SERVFAIL".
Definition dnsServerAddress : string := "8.8.8.8".
Definition e2eterraformPrefix : string := "e2eterraform".
Definition resourceGroup : string := "root_dns_zone_rg".
Definition zoneName : string := "azure.gigantic.io".

(** ** Events and the writer monad *)

Inductive Event : Type :=
| Log (keyvals : list (string * string))
    (** [c.logger.Log(...)], [c.logger.LogCtx(ctx, ...)] *)
| GroupsListComplete
    (** [c.groupsClient.ListComplete(ctx, "", nil)] *)
| ActivityLogsListComplete (filter : string)
    (** [c.activityLogsClient.ListComplete(ctx, filter, "")] *)
| GroupsDelete (resourceGroupName : string)
    (** [c.groupsClient.Delete(ctx, name)] *)
| RecordSetsListAllByDNSZone (resourceGroupName zone : string)
    (** [c.dnsRecordSetsClient.ListAllByDNSZoneComplete(ctx, rg, zone, nil, "")] *)
| RecordSetsDelete (resourceGroupName zone relativeRecordSetName : string)
                   (recordType : dns.RecordType) (ifMatch : string)
    (** [c.dnsRecordSetsClient.Delete(ctx, rg, zone, name, type, etag)] *)
| LookupHost (servers : list string) (retryTimes : Z) (host : string)
    (** [resolver.LookupHost(host)] on [dns_resolver.New(servers)] with
        [RetryTimes = retryTimes] *).

Definition Trace : Type := list Event.

Definition M (A : Type) : Type := (A * Trace)%type.

Definition ret {A} (a : A) : M A := (a, []).

Definition bind {A B} (m : M A) (k : A -> M B) : M B :=
  let (a, t1) := m in
  let (b, t2) := k a in
  (b, (t1 ++ t2)%list).

Definition emit (e : Event) : M unit := (tt, [e]).

Notation "x <- m ;; k" := (bind m (fun x => k))
  (at level 61, m at next level, right associativity).
Notation "m ;;; k" := (bind m (fun _ => k))
  (at level 61, right associativity).

(** ** Collaborators

    What the package takes from outside: Go's [error] interface with
    [microerror.Mask], the [fmt] verbs, the time formatter, the resolver of
    [github.com/bogdanovich/dns_resolver] and the SDK's [EventData]. *)

Class Collaborators : Type := {
  (** Go's [error] values, [err.Error()] and [microerror.Mask] *)
  error : Type;
  Error : error -> string;
  Mask : error -> error;
  (** [fmt.Sprintf("%q", s)] and [fmt.Sprintf("%#v", err)] *)
  fmtQ : string -> string;
  fmtSharpV : error -> string;
  (** [t.Format(time.RFC3339Nano)] of an instant in UTC; instants are
      nanoseconds since the epoch *)
  FormatRFC3339Nano : Z -> string;
  (** what [resolver.LookupHost(host)] answers, for the resolver made by
      [dns_resolver.New(servers)] with [RetryTimes = retryTimes] *)
  dns_resolver_LookupHost :
    list string -> Z -> string -> list string * option error;
  (** the values of the activity-log iterator; the code only asks whether
      there is one *)
  EventData : Type
}.

Section Cleaner.

Context {W : Collaborators}.

(** The clients held by the Go struct [Cleaner]. *)
Record Cleaner : Type := {
  groupsClient_ListComplete : list resources.Group * option error;
  groupsClient_Delete : string -> option http.Response * option error;
    (** [respFuture.Response()] and [err] *)
  groupsClient_DeleteResponder :
    option http.Response -> autorest.Resp * option error;
  activityLogsClient_ListComplete : string -> list EventData * option error;
  dnsRecordSetsClient_ListAllByDNSZoneComplete :
    string -> string -> list dns.RecordSet * option error;
  dnsRecordSetsClient_Delete :
    string -> string -> string -> dns.RecordType -> string -> option error
}.

(** [iter.NotDone()] *)
Definition NotDone {A} (iter : list A) : bool :=
  match iter with [] => false | _ :: _ => true end.

(** *** resourcegroup.go *)

(** [groupHasTestNamePrefix]: the [for _, prefix := range prefixes] loop. *)
Definition prefixes : list string := ["ci-"; "e2e"].

Definition groupHasTestNamePrefix (group : resources.Group) : bool :=
  existsb (fun prefix => strings.HasPrefix (resources.Name group) prefix) prefixes.

Definition activityFilter (since : Z) (name : string) : string :=
  "eventTimestamp ge '" ++ FormatRFC3339Nano since ++
  "' and resourceGroupName eq '" ++ name ++ "'".

(** [groupHasActivity] *)
Definition groupHasActivity (c : Cleaner) (group : resources.Group) (since : Z)
  : M (bool * option error) :=
  let filter := activityFilter since (resources.Name group) in
  emit (ActivityLogsListComplete filter) ;;;
  let (eventIter, err) := activityLogsClient_ListComplete c filter in
  match err with
  | Some err => ret (false, Some (Mask err))
  | None => ret (NotDone eventIter, None)
  end.

(** [groupShouldBeDeleted] *)
Definition groupShouldBeDeleted (c : Cleaner) (group : resources.Group) (since : Z)
  : M (bool * option error) :=
  if negb (groupHasTestNamePrefix group) then ret (false, None)
  else
    r <- groupHasActivity c group since ;;
    let (hasActivity, err) := r in
    match err with
    | Some err => ret (false, Some (Mask err))
    | None => ret (negb hasActivity, None)
    end.

Definition logChecking (name : string) : Event :=
  Log [("level", "debug");
       ("message", "checking resource group " ++ fmtQ name)].

Definition logSkipping (name : string) (err : error) : Event :=
  Log [("level", "debug");
       ("message", "skipping resource group " ++ fmtQ name ++ " due to error");
       ("error", Error err)].

Definition logDeletionFailed (name : string) (err : error) : Event :=
  Log [("level", "error");
       ("message", "resource group " ++ fmtQ name ++ " deletion failed");
       ("error", Error err)].

Definition logDeleted (name : string) : Event :=
  Log [("level", "debug");
       ("message", "resource group " ++ fmtQ name ++ " deleted")].

(** [res.Response != nil && res.StatusCode == http.StatusNotFound] *)
Definition isNotFound (res : autorest.Resp) : bool :=
  match autorest.Response res with
  | Some r => Z.eqb (http.StatusCode r) http.StatusNotFound
  | None => false
  end.

(** The [if shouldBeDeleted { ... }] block of the loop body.  The result
    is [Some e] when the function returns [e] from inside the loop and
    [None] when the iteration ends normally. *)
Definition deleteGroup (c : Cleaner) (name : string) : M (option error) :=
  emit (GroupsDelete name) ;;;
  let (respFuture, err) := groupsClient_Delete c name in
  match err with
  | Some err =>
      emit (logDeletionFailed name err) ;;;
      ret (Some (Mask err))
  | None =>
      let (res, err) := groupsClient_DeleteResponder c respFuture in
      if isNotFound res then
        emit (logDeleted name) ;;; ret None
      else
        match err with
        | Some err =>
            emit (logDeletionFailed name err) ;;;
            ret (Some (Mask err))
        | None =>
            emit (logDeleted name) ;;; ret None
        end
  end.

(** One iteration of the loop of [cleanResourceGroup]. *)
Definition cleanResourceGroupBody (c : Cleaner) (deadLine : Z)
           (group : resources.Group) : M (option error) :=
  let name := resources.Name group in
  emit (logChecking name) ;;;
  r <- groupShouldBeDeleted c group deadLine ;;
  let (shouldBeDeleted, err) := r in
  match err with
  | Some err => emit (logSkipping name err) ;;; ret None
  | None => if shouldBeDeleted then deleteGroup c name else ret None
  end.

(** [for ; groupIter.NotDone(); groupIter.Next() { ... }; return nil] *)
Fixpoint cleanResourceGroupLoop (c : Cleaner) (deadLine : Z)
         (groupIter : list resources.Group) : M (option error) :=
  match groupIter with
  | [] => ret None
  | group :: groupIter' =>
      r <- cleanResourceGroupBody c deadLine group ;;
      match r with
      | Some err => ret (Some err)
      | None => cleanResourceGroupLoop c deadLine groupIter'
      end
  end.

(** [cleanResourceGroup]; [now] is what [time.Now()] returns. *)
Definition cleanResourceGroup (c : Cleaner) (now : Z) : M (option error) :=
  emit GroupsListComplete ;;;
  let (groupIter, err) := groupsClient_ListComplete c in
  match err with
  | Some err => ret (Some (Mask err))
  | None =>
      let deadLine := (now - gracePeriod)%Z in
      cleanResourceGroupLoop c deadLine groupIter
  end.

(** *** delegatedns.go *)

(** The syntax tree of [^e2e.*\.(westeurope|germanywestcentral)$]. *)
Definition ciRecordRe : regexp.Regexp :=
  regexp.Concat regexp.BeginText
 (regexp.Concat (regexp.Lit "e2e")
 (regexp.Concat (regexp.Star regexp.AnyCharNotNL)
 (regexp.Concat (regexp.Literal ".")
 (regexp.Concat (regexp.Alternate (regexp.Lit "westeurope")
                                  (regexp.Lit "germanywestcentral"))
                regexp.EndText)))).

(** [isCIRecord]; [list_ascii_of_string s] is [[]byte(s)]. *)
Definition isCIRecord (s : string) : bool :=
  if strings.HasPrefix s e2eterraformPrefix then true
  else regexp.Match ciRecordRe (list_ascii_of_string s).

(** The byte strings the pattern describes, spelled out: ["e2e"], then any
    bytes but newline, then a dot and one of the two regions, with nothing
    before and nothing after. *)
Definition ciRecordShape (b : list ascii) : Prop :=
  exists (mid : list ascii) (region : string),
    b = (list_ascii_of_string "e2e" ++ mid ++
         "."%char :: list_ascii_of_string region)%list /\
    ~ In regexp.newline mid /\
    (region = "westeurope" \/ region = "germanywestcentral").

Definition apiName (name : string) : string :=
  "api." ++ name ++ "." ++ zoneName.

(** [len(addresses) > 0] *)
Definition nonEmpty {A} (l : list A) : bool := (0 <? Z.of_nat (length l))%Z.

(** [resolvesApiName] *)
Definition resolvesApiName (name : string) : M (bool * option error) :=
  let full := apiName name in
  emit (LookupHost [dnsServerAddress] 5 full) ;;;
  let (addresses, err) := dns_resolver_LookupHost [dnsServerAddress] 5 full in
  match err with
  | Some err =>
      if negb (strings.Contains (Error err) dnsFailureError)
      then ret (false, Some err)
      else ret (nonEmpty addresses, None)
  | None => ret (nonEmpty addresses, None)
  end.

Definition logUnexpected (name : string) (err : error) : Event :=
  Log [("level", "warning");
       ("message", "Unexpected error when trying to resolve " ++ name ++ ": "
                   ++ Error err)].

(** [dnsRecordShouldBeDeleted] *)
Definition dnsRecordShouldBeDeleted (c : Cleaner) (dnsRecord : dns.RecordSet)
           (since : Z) : M (bool * option error) :=
  if negb (isCIRecord (dns.Name dnsRecord)) then ret (false, None)
  else
    r <- resolvesApiName (dns.Name dnsRecord) ;;
    let (resolves, err) := r in
    match err with
    | Some err =>
        emit (logUnexpected (dns.Name dnsRecord) err) ;;;
        ret (false, None)
    | None => ret (negb resolves, None)
    end.

(** [deleteRecord] *)
Definition deleteRecord (c : Cleaner) (dnsRecord : dns.RecordSet) : M (option error) :=
  emit (RecordSetsDelete resourceGroup zoneName (dns.Name dnsRecord) dns.NS
                         (dns.Etag dnsRecord)) ;;;
  ret (dnsRecordSetsClient_Delete c resourceGroup zoneName (dns.Name dnsRecord)
                                  dns.NS (dns.Etag dnsRecord)).

Definition logFailedToCheck (name : string) (err : error) : Event :=
  Log [("level", "error");
       ("message", "failed to check DNS record " ++ fmtQ name);
       ("stack", fmtSharpV (Mask err))].

Definition logFailedToDelete (name : string) (err : error) : Event :=
  Log [("level", "error");
       ("message", "failed to delete DNS record " ++ fmtQ name);
       ("stack", fmtSharpV (Mask err))].

Definition logSkippingRecord : Event :=
  Log [("level", "error"); ("message", "skipping")].

Definition logHasToBeDeleted (name : string) : Event :=
  Log [("level", "info");
       ("message", "DNS record " ++ name ++ " has to be deleted")].

Definition logWasDeleted (name : string) : Event :=
  Log [("level", "debug");
       ("info", "DNS record " ++ name ++ " was deleted")].

Definition logHasToBeKept (name : string) : Event :=
  Log [("level", "debug");
       ("message", "DNS record " ++ name ++ " has to be kept")].

(** One iteration of the loop of [cleanDelegateDNSRecords]: the result
    is the value of [lastError] after it. *)
Definition cleanDelegateDNSRecordsBody (c : Cleaner) (deadLine : Z)
           (lastError : option error) (record : dns.RecordSet) : M (option error) :=
  let name := dns.Name record in
  r <- dnsRecordShouldBeDeleted c record deadLine ;;
  let (del, err) := r in
  match err with
  | Some err =>
      emit (logFailedToCheck name err) ;;;
      emit logSkippingRecord ;;;
      ret (Some err)
  | None =>
      if del then
        emit (logHasToBeDeleted name) ;;;
        err <- deleteRecord c record ;;
        match err with
        | Some err =>
            emit (logFailedToDelete name err) ;;;
            emit logSkippingRecord ;;;
            ret (Some err)
        | None =>
            emit (logWasDeleted name) ;;;
            ret lastError
        end
      else
        emit (logHasToBeKept name) ;;;
        ret lastError
  end.

(** [for ; recordsIter.NotDone(); recordsIter.Next() { ... }] followed by
    the final [if lastError != nil]. *)
Fixpoint cleanDelegateDNSRecordsLoop (c : Cleaner) (deadLine : Z)
         (lastError : option error) (recordsIter : list dns.RecordSet)
  : M (option error) :=
  match recordsIter with
  | [] =>
      match lastError with
      | Some lastError => ret (Some (Mask lastError))
      | None => ret None
      end
  | record :: recordsIter' =>
      lastError' <- cleanDelegateDNSRecordsBody c deadLine lastError record ;;
      cleanDelegateDNSRecordsLoop c deadLine lastError' recordsIter'
  end.

(** [cleanDelegateDNSRecords]; [now] is what [time.Now()] returns. *)
Definition cleanDelegateDNSRecords (c : Cleaner) (now : Z) : M (option error) :=
  emit (RecordSetsListAllByDNSZone resourceGroup zoneName) ;;;
  let (recordsIter, err) :=
    dnsRecordSetsClient_ListAllByDNSZoneComplete c resourceGroup zoneName in
  match err with
  | Some err => ret (Some (Mask err))
  | None =>
      let deadLine := (now - gracePeriod)%Z in
      cleanDelegateDNSRecordsLoop c deadLine None recordsIter
  end.

End Cleaner.

(** ** Reading traces *)

Definition isGroupsDelete (name : string) (e : Event) : bool :=
  match e with
  | GroupsDelete n => String.eqb n name
  | _ => false
  end.

(** How many times the deletion of the group [name] was requested. *)
Definition groupDeletions (name : string) (t : Trace) : nat :=
  length (filter (isGroupsDelete name) t).

(** How many groups of a listing bear the name [name]. *)
Definition occurrences (name : string) (groups : list resources.Group) : nat :=
  length (filter (fun g => String.eqb (resources.Name g) name) groups).

(** The decision of [groupShouldBeDeleted] for a group: the boolean it
    returns. *)
Definition groupDecision {W : Collaborators} (c : Cleaner) (deadLine : Z)
           (group : resources.Group) : bool :=
  fst (fst (groupShouldBeDeleted c group deadLine)).

(** The deletion of a group failed with [err]: the call itself returned
    [err], or the responder did and the response was not a 404. *)
Definition groupDeleteFails {W : Collaborators} (c : Cleaner) (name : string)
           (err : error) : Prop :=
  (exists respFuture, groupsClient_Delete c name = (respFuture, Some err)) \/
  (exists respFuture res,
      groupsClient_Delete c name = (respFuture, None) /\
      groupsClient_DeleteResponder c respFuture = (res, Some err) /\
      isNotFound res = false).

(** The request to delete a record set, as [deleteRecord] sends it. *)
Definition recordDeletion (record : dns.RecordSet) : Event :=
  RecordSetsDelete resourceGroup zoneName (dns.Name record) dns.NS
                   (dns.Etag record).

(** The error of the deletion of a record, when [dnsRecordShouldBeDeleted]
    asks for the deletion and the deletion fails. *)
Definition deleteFailure {W : Collaborators} (c : Cleaner) (deadLine : Z)
           (record : dns.RecordSet) : option error :=
  if fst (fst (dnsRecordShouldBeDeleted c record deadLine))
  then dnsRecordSetsClient_Delete c resourceGroup zoneName (dns.Name record)
                                  dns.NS (dns.Etag record)
  else None.

(** The error of the last failed deletion among the records of a listing. *)
Fixpoint lastFailure {W : Collaborators} (c : Cleaner) (deadLine : Z)
         (recordsIter : list dns.RecordSet) : option error :=
  match recordsIter with
  | [] => None
  | record :: recordsIter' =>
      match lastFailure c deadLine recordsIter' with
      | Some err => Some err
      | None => deleteFailure c deadLine record
      end
  end.

(** Every occurrence of an action [act a] in the trace [t] comes right
    after the events [guard a]. *)
Definition guardedBy {A} (act : A -> Event) (guard : A -> list Event)
           (t : Trace) : Prop :=
  forall t1 t2 a,
    t = (t1 ++ act a :: t2)%list -> exists t0, t1 = (t0 ++ guard a)%list.

Definition isLookupHost (e : Event) : bool :=
  match e with
  | LookupHost _ _ _ => true
  | _ => false
  end.

(** ** A concrete setting, for examples

    Errors are their messages, [Mask] keeps the message, [%q] puts the
    name between quotes; the formatter's output plays no part in what the
    examples show. *)

Definition quoted (s : string) : string :=
  String "034"%char (s ++ String "034"%char EmptyString).

Definition exampleCollaborators
           (lookup : string -> list string * option string) : Collaborators :=
  {| error := string;
     Error := fun err => err;
     Mask := fun err => err;
     fmtQ := quoted;
     fmtSharpV := fun err => err;
     FormatRFC3339Nano := fun _ => "2019-03-01T10:30:00Z";
     dns_resolver_LookupHost := fun _ _ host => lookup host;
     EventData := unit |}.

(** The resolver of the examples: one name resolves, one gets SERVFAIL,
    every other lookup times out. *)
Definition exampleLookup (host : string) : list string * option string :=
  if String.eqb host "api.e2eterraform-xyz.azure.gigantic.io"
  then (["10.0.0.1"], None)
  else if String.eqb host "api.e2eabcd.westeurope.azure.gigantic.io"
  then ([], Some "SERVFAIL")
  else ([], Some "i/o timeout").

Definition exampleWorld : Collaborators := exampleCollaborators exampleLookup.

(** The cleaner of the examples, given what the activity log answers, what
    the group deletion answers and what the record deletion answers. *)
Definition exampleCleaner
           (activity : string -> list unit * option string)
           (delete : string -> option http.Response * option string)
           (responder : option http.Response -> autorest.Resp * option string)
           (deleteRecordSet : string -> option string)
  : @Cleaner exampleWorld :=
  @Build_Cleaner exampleWorld
    ([ {| resources.Name := "ci-build-42" |};
       {| resources.Name := "prod-shared" |};
       {| resources.Name := "e2e-busy" |} ], None)
    delete
    responder
    activity
    (fun _ _ =>
       ([ {| dns.Name := "e2eterraform-xyz"; dns.Etag := "etag-1" |};
          {| dns.Name := "e2eabcd.westeurope"; dns.Etag := "etag-2" |};
          {| dns.Name := "e2eterraform-old"; dns.Etag := "etag-3" |};
          {| dns.Name := "www"; dns.Etag := "etag-4" |} ], None))
    (fun _ _ name _ _ => deleteRecordSet name).

(** Only the group [e2e-busy] has events since the deadline. *)
Definition quietActivity (filter : string) : list unit * option string :=
  if strings.Contains filter "e2e-busy" then ([tt], None) else ([], None).

Definition brokenActivity (filter : string) : list unit * option string :=
  ([], Some "activity log unavailable").

Definition accepted (name : string) : option http.Response * option string :=
  (Some {| http.StatusCode := 202 |}, None).

(** The group is gone: the SDK's [Delete] reports the HTTP 404 as an error
    of the call. *)
Definition notFound (name : string) : option http.Response * option string :=
  (None,
   Some "autorest/azure: Service returned an error. Status=404 Code=ResourceGroupNotFound").

Definition refused (name : string) : option http.Response * option string :=
  (None, Some "connection refused").

(** The SDK's responder: an error unless the status is 200, 202 or 204. *)
Definition exampleResponder (resp : option http.Response)
  : autorest.Resp * option string :=
  ({| autorest.Response := resp |},
   match resp with
   | Some r =>
       if (http.StatusCode r =? 200)%Z || (http.StatusCode r =? 202)%Z
          || (http.StatusCode r =? 204)%Z
       then None else Some "unexpected status"
   | None => Some "no response"
   end).

Definition recordDeleted (name : string) : option string := None.

Definition recordDeleteFails (name : string) : option string :=
  Some ("precondition failed: " ++ name).

(** The cleaners of the examples: every deletion succeeds; the deletion of
    a group is refused; the deletion of a record fails. *)
Definition exampleQuiet : @Cleaner exampleWorld :=
  exampleCleaner quietActivity accepted exampleResponder recordDeleted.

Definition exampleRefused : @Cleaner exampleWorld :=
  exampleCleaner quietActivity refused exampleResponder recordDeleted.

Definition exampleRecordsFail : @Cleaner exampleWorld :=
  exampleCleaner quietActivity accepted exampleResponder recordDeleteFails.

(** * The matcher computes the meaning of patterns *)

Module regexp_facts.
Import regexp.

Lemma Matches_nil_inv pre m post r :
  Matches pre m post r -> m = [] ->
  nullable (isEmpty pre) (isEmpty post) r = true.
Proof.
  induction 1; intros Hm; simpl; try discriminate; try reflexivity.
  - apply app_eq_nil in Hm. destruct Hm as [-> ->].
    simpl in *. rewrite app_nil_r in *.
    rewrite IHMatches1, IHMatches2; reflexivity.
  - rewrite IHMatches; [reflexivity | assumption].
  - rewrite IHMatches; [apply orb_true_r | assumption].
Qed.

Lemma nullable_Matches pre post r :
  nullable (isEmpty pre) (isEmpty post) r = true <-> Matches pre [] post r.
Proof.
  split.
  - revert pre post. induction r; simpl; intros pre post H; try discriminate.
    + constructor.
    + destruct pre; [constructor | discriminate].
    + destruct post; [constructor | discriminate].
    + apply andb_true_iff in H. destruct H as [H1 H2].
      change (@nil ascii) with (@nil ascii ++ [])%list.
      constructor.
      * apply IHr1. assumption.
      * rewrite app_nil_r. apply IHr2. assumption.
    + apply orb_true_iff in H. destruct H as [H | H].
      * apply MAltL. apply IHr1. assumption.
      * apply MAltR. apply IHr2. assumption.
    + constructor.
  - intros H. eapply Matches_nil_inv; [eassumption | reflexivity].
Qed.

Lemma Matches_Concat_inv pre m post r1 r2 :
  Matches pre m post (Concat r1 r2) ->
  exists m1 m2,
    m = (m1 ++ m2)%list /\
    Matches pre m1 (m2 ++ post) r1 /\
    Matches (pre ++ m1) m2 post r2.
Proof.
  intros H. inversion H; subst. eauto.
Qed.

(** A non-empty match of [r*] starts with a non-empty match of [r]. *)
Lemma Matches_Star_cons pre c m post r :
  Matches pre (c :: m) post (Star r) ->
  exists m1 m2,
    m = (m1 ++ m2)%list /\
    Matches pre (c :: m1) (m2 ++ post) r /\
    Matches (pre ++ c :: m1) m2 post (Star r).
Proof.
  intros H.
  remember (Star r) as s eqn:Es. remember (c :: m) as w eqn:Ew.
  induction H; try discriminate.
  injection Es as ->.
  destruct m1 as [|a m1].
  - simpl in Ew. rewrite app_nil_r in *. apply IHMatches2; auto.
  - simpl in Ew. injection Ew as Ea Em. subst a m.
    exists m1, m2. auto.
Qed.

Lemma deriv_Matches r : forall pre c m post,
  Matches pre (c :: m) post r <->
  Matches (pre ++ [c]) m post (deriv (isEmpty pre) c r).
Proof.
  induction r; intros pre c0 m post; simpl.
  - split; intros H; inversion H.
  - split; intros H; inversion H.
  - split; intros H.
    + inversion H; subst. rewrite Ascii.eqb_refl. constructor.
    + destruct (Ascii.eqb_spec c c0) as [-> | ]; inversion H; subst. constructor.
  - split; intros H.
    + inversion H; subst.
      destruct (Ascii.eqb_spec c0 newline); [contradiction | constructor].
    + destruct (Ascii.eqb_spec c0 newline); inversion H; subst.
      constructor. assumption.
  - split; intros H; inversion H.
  - split; intros H; inversion H.
  - split; intros H.
    + apply Matches_Concat_inv in H. destruct H as (m1 & m2 & Em & H1 & H2).
      destruct m1 as [|a m1].
      * simpl in Em. subst m2. rewrite app_nil_r in H2.
        apply Matches_nil_inv with (2 := eq_refl) in H1. simpl in H1.
        rewrite H1. apply MAltR. apply IHr2. assumption.
      * simpl in Em. injection Em as Ea Em. subst a m.
        assert (Matches (pre ++ [c0]) (m1 ++ m2) post
                        (Concat (deriv (isEmpty pre) c0 r1) r2)) as HC.
        { constructor.
          - apply IHr1. assumption.
          - rewrite <- app_assoc. assumption. }
        destruct (nullable (isEmpty pre) false r1); [apply MAltL |]; assumption.
    + assert (Matches (pre ++ [c0]) m post (Concat (deriv (isEmpty pre) c0 r1) r2)
              -> Matches pre (c0 :: m) post (Concat r1 r2)) as HC.
      { intros HC.
        apply Matches_Concat_inv in HC. destruct HC as (m1 & m2 & -> & H1 & H2).
        change (c0 :: m1 ++ m2)%list with ((c0 :: m1) ++ m2)%list.
        constructor.
        - apply IHr1. assumption.
        - rewrite <- app_assoc in H2. assumption. }
      destruct (nullable (isEmpty pre) false r1) eqn:En; [| auto].
      inversion H; subst; [auto |].
      change (c0 :: m)%list with ([] ++ c0 :: m)%list.
      constructor.
      * apply nullable_Matches. simpl. assumption.
      * rewrite app_nil_r. apply IHr2. assumption.
  - split; intros H.
    + inversion H; subst; [apply MAltL, IHr1 | apply MAltR, IHr2]; assumption.
    + inversion H; subst; [apply MAltL, IHr1 | apply MAltR, IHr2]; assumption.
  - split; intros H.
    + apply Matches_Star_cons in H. destruct H as (m1 & m2 & -> & H1 & H2).
      constructor.
      * apply IHr. assumption.
      * rewrite <- app_assoc. assumption.
    + apply Matches_Concat_inv in H. destruct H as (m1 & m2 & -> & H1 & H2).
      change (c0 :: m1 ++ m2)%list with ((c0 :: m1) ++ m2)%list.
      apply MStarApp.
      * apply IHr. assumption.
      * rewrite <- app_assoc in H2. assumption.
Qed.

Lemma isEmpty_snoc {A} (l : list A) (a : A) : isEmpty (l ++ [a]) = false.
Proof. destruct l; reflexivity. Qed.

Lemma matchPrefix_Matches b : forall pre r,
  matchPrefix (isEmpty pre) r b = true <->
  exists m post, b = (m ++ post)%list /\ Matches pre m post r.
Proof.
  induction b as [|c b IH]; intros pre r; simpl.
  - change true with (isEmpty (@nil ascii)) at 1. rewrite nullable_Matches.
    split.
    + intros H. exists [], []. auto.
    + intros (m & post & E & H). symmetry in E.
      apply app_eq_nil in E. destruct E as [-> ->]. assumption.
  - rewrite orb_true_iff.
    change false with (isEmpty (c :: b)) at 1. rewrite nullable_Matches.
    rewrite <- (isEmpty_snoc pre c) at 1. rewrite IH.
    split.
    + intros [H | (m & post & -> & H)].
      * exists [], (c :: b). auto.
      * exists (c :: m), post. split; [reflexivity |].
        apply deriv_Matches. assumption.
    + intros (m & post & E & H). destruct m as [|a m]; simpl in E.
      * subst post. left. assumption.
      * injection E as <- ->. right. exists m, post. split; [reflexivity |].
        apply deriv_Matches. assumption.
Qed.

Lemma search_Matches b : forall pre r,
  search (isEmpty pre) r b = true <->
  exists skip m post,
    b = (skip ++ m ++ post)%list /\ Matches (pre ++ skip) m post r.
Proof.
  induction b as [|c b IH]; intros pre r; cbn [search]; rewrite orb_true_iff.
  - rewrite matchPrefix_Matches. split.
    + intros [(m & post & E & H) | H]; [| discriminate].
      exists [], m, post. rewrite app_nil_r. auto.
    + intros (skip & m & post & E & H). symmetry in E.
      apply app_eq_nil in E. destruct E as [-> E].
      rewrite app_nil_r in H. left. exists m, post. auto.
  - rewrite matchPrefix_Matches.
    rewrite <- (isEmpty_snoc pre c). rewrite IH. split.
    + intros [(m & post & E & H) | (skip & m & post & -> & H)].
      * exists [], m, post. rewrite app_nil_r. auto.
      * exists (c :: skip), m, post. split; [reflexivity |].
        rewrite <- app_assoc in H. assumption.
    + intros (skip & m & post & E & H). destruct skip as [|a skip]; simpl in E.
      * rewrite app_nil_r in H. left. exists m, post. auto.
      * injection E as <- ->. right. exists skip, m, post.
        split; [reflexivity |]. rewrite <- app_assoc. assumption.
Qed.

(** [re.Match(b)] is true exactly when [b] contains a match of [re]. *)
Lemma Match_ContainsMatch re b :
  Match re b = true <-> ContainsMatch re b.
Proof.
  unfold Match, ContainsMatch.
  change true with (isEmpty (@nil ascii)) at 1.
  rewrite search_Matches. simpl. reflexivity.
Qed.

Lemma MConcat_eq pre m m1 m2 post r1 r2 :
  m = (m1 ++ m2)%list ->
  Matches pre m1 (m2 ++ post) r1 ->
  Matches (pre ++ m1) m2 post r2 ->
  Matches pre m post (Concat r1 r2).
Proof. intros ->. apply MConcat. Qed.

(** A literal matches its own bytes and nothing else. *)
Lemma Matches_Lit s : forall pre m post,
  Matches pre m post (Lit s) <-> m = list_ascii_of_string s.
Proof.
  induction s as [|c s IH]; intros pre m post; simpl.
  - split; intros H.
    + inversion H. reflexivity.
    + subst m. constructor.
  - split; intros H.
    + apply Matches_Concat_inv in H. destruct H as (m1 & m2 & -> & H1 & H2).
      inversion H1; subst. apply IH in H2. subst m2. reflexivity.
    + subst m. apply MConcat_eq with (m1 := [c]) (m2 := list_ascii_of_string s).
      * reflexivity.
      * constructor.
      * apply IH. reflexivity.
Qed.

(** [.*] matches the pieces that hold no newline. *)
Lemma Matches_Star_Any pre m post :
  Matches pre m post (Star AnyCharNotNL) <-> ~ In newline m.
Proof.
  split.
  - intros H. remember (Star AnyCharNotNL) as r eqn:Er.
    induction H; try discriminate.
    + intros [].
    + injection Er as ->. inversion H; subst.
      intros [E | HIn]; [congruence |]. apply IHMatches2; auto.
  - revert pre. induction m as [|c m IH]; intros pre H.
    + constructor.
    + change (c :: m)%list with ([c] ++ m)%list. apply MStarApp.
      * constructor. intros ->. apply H. left. reflexivity.
      * apply IH. intros HIn. apply H. right. assumption.
Qed.

Lemma Matches_BeginText pre m post :
  Matches pre m post BeginText <-> pre = [] /\ m = [].
Proof.
  split.
  - intros H. inversion H. auto.
  - intros [-> ->]. constructor.
Qed.

Lemma Matches_EndText pre m post :
  Matches pre m post EndText <-> post = [] /\ m = [].
Proof.
  split.
  - intros H. inversion H. auto.
  - intros [-> ->]. constructor.
Qed.

Lemma Matches_Alternate pre m post r1 r2 :
  Matches pre m post (Alternate r1 r2) <->
  Matches pre m post r1 \/ Matches pre m post r2.
Proof.
  split.
  - intros H. inversion H; subst; auto.
  - intros [H | H]; [apply MAltL | apply MAltR]; assumption.
Qed.

End regexp_facts.

(** * isCIRecord *)

(** The pattern of [isCIRecord] is anchored at both ends: a text contains a
    match of it exactly when the whole text has the shape
    [e2e<no newline>.<region>]. *)
Lemma ciRecordRe_language (b : list ascii) :
  regexp.ContainsMatch ciRecordRe b <-> ciRecordShape b.
Proof.
  unfold regexp.ContainsMatch, ciRecordShape, ciRecordRe. split.
  - intros (pre & m & post & E & H).
    apply regexp_facts.Matches_Concat_inv in H.
    destruct H as (m0 & n0 & -> & H0 & H).
    apply regexp_facts.Matches_BeginText in H0. destruct H0 as [-> ->].
    apply regexp_facts.Matches_Concat_inv in H.
    destruct H as (m1 & n1 & -> & H1 & H).
    apply regexp_facts.Matches_Lit in H1. subst m1.
    apply regexp_facts.Matches_Concat_inv in H.
    destruct H as (m2 & n2 & -> & H2 & H).
    apply regexp_facts.Matches_Star_Any in H2.
    apply regexp_facts.Matches_Concat_inv in H.
    destruct H as (m3 & n3 & -> & H3 & H).
    inversion H3; subst.
    apply regexp_facts.Matches_Concat_inv in H.
    destruct H as (m4 & n4 & -> & H4 & H).
    apply regexp_facts.Matches_EndText in H. destruct H as [-> ->].
    apply regexp_facts.Matches_Alternate in H4.
    destruct H4 as [H4 | H4]; apply regexp_facts.Matches_Lit in H4; subst m4.
    + exists m2, "westeurope". simpl. rewrite !app_nil_r. auto.
    + exists m2, "germanywestcentral". simpl. rewrite !app_nil_r. auto.
  - intros (mid & region & -> & Hnl & Hregion).
    exists [], (list_ascii_of_string "e2e" ++ mid ++
                "."%char :: list_ascii_of_string region)%list, [].
    split; [rewrite app_nil_r; reflexivity |].
    apply regexp_facts.MConcat_eq with (m1 := []) (2 := regexp.MBegin _);
      [reflexivity |].
    apply regexp_facts.MConcat_eq
      with (m1 := list_ascii_of_string "e2e")
           (m2 := (mid ++ "."%char :: list_ascii_of_string region)%list);
      [reflexivity | apply regexp_facts.Matches_Lit; reflexivity |].
    apply regexp_facts.MConcat_eq
      with (m1 := mid) (m2 := ("."%char :: list_ascii_of_string region)%list);
      [reflexivity | apply regexp_facts.Matches_Star_Any; exact Hnl |].
    apply regexp_facts.MConcat_eq
      with (m1 := ["."%char]) (m2 := list_ascii_of_string region);
      [reflexivity | constructor |].
    apply regexp_facts.MConcat_eq
      with (m1 := list_ascii_of_string region) (m2 := []);
      [rewrite app_nil_r; reflexivity | | constructor].
    apply regexp_facts.Matches_Alternate.
    destruct Hregion as [-> | ->]; [left | right];
      apply regexp_facts.Matches_Lit; reflexivity.
Qed.

(** C6. [isCIRecord s] is true if and only if [s] starts with
    ["e2eterraform"] or [s] matches the pattern
    [^e2e.*\.(westeurope|germanywestcentral)$], read as Go's [regexp] reads
    it on the bytes of [s]; and the pattern, anchored at both ends, matches
    the whole of [s] or nothing: [s] is ["e2e"], bytes without a newline, a
    dot and one of the two regions. *)
Theorem isCIRecord_iff (s : string) :
  (isCIRecord s = true <->
   strings.HasPrefix s "e2eterraform" = true \/
   regexp.ContainsMatch ciRecordRe (list_ascii_of_string s)) /\
  (regexp.ContainsMatch ciRecordRe (list_ascii_of_string s) <->
   ciRecordShape (list_ascii_of_string s)).
Proof.
  split; [| apply ciRecordRe_language].
  unfold isCIRecord, e2eterraformPrefix.
  rewrite <- regexp_facts.Match_ContainsMatch.
  destruct (strings.HasPrefix s "e2eterraform"); split; auto.
  intros [H | H]; [discriminate | assumption].
Qed.

(** * Strings *)

Module strings_facts.

Lemma list_ascii_of_string_app (s1 s2 : string) :
  list_ascii_of_string (s1 ++ s2) =
  (list_ascii_of_string s1 ++ list_ascii_of_string s2)%list.
Proof.
  induction s1 as [|c s1 IH]; simpl; [reflexivity | rewrite IH; reflexivity].
Qed.

Lemma list_ascii_of_string_inj (s1 s2 : string) :
  list_ascii_of_string s1 = list_ascii_of_string s2 -> s1 = s2.
Proof.
  intros H. rewrite <- (string_of_list_ascii_of_string s1), H.
  apply string_of_list_ascii_of_string.
Qed.

Lemma append_inv_head (s a b : string) : s ++ a = s ++ b -> a = b.
Proof.
  induction s as [|c s IH]; simpl; intros H; [assumption |].
  injection H as H. auto.
Qed.

Lemma append_inv_tail (a b s : string) : a ++ s = b ++ s -> a = b.
Proof.
  intros H. apply list_ascii_of_string_inj.
  apply (f_equal list_ascii_of_string) in H.
  rewrite !list_ascii_of_string_app in H.
  apply app_inv_tail in H. assumption.
Qed.

End strings_facts.

(** * resourcegroup.go *)

Open Scope list_scope.

Section ResourceGroupFacts.

Context {W : Collaborators}.

Lemma bind_eq {A B} (m : M A) (k : A -> M B) :
  bind m k = (fst (k (fst m)), (snd m ++ snd (k (fst m)))%list).
Proof.
  unfold bind. destruct m as [a t1]. simpl. destruct (k a). reflexivity.
Qed.

Lemma groupDeletions_app name t1 t2 :
  groupDeletions name (t1 ++ t2) = groupDeletions name t1 + groupDeletions name t2.
Proof.
  unfold groupDeletions. rewrite filter_app, length_app. reflexivity.
Qed.

(** *** What one call of each function does *)

Lemma groupShouldBeDeleted_not_eligible c group since :
  groupHasTestNamePrefix group = false ->
  groupShouldBeDeleted c group since = ((false, None), []).
Proof.
  intros H. unfold groupShouldBeDeleted. rewrite H. reflexivity.
Qed.

Lemma groupShouldBeDeleted_eligible c group since :
  groupHasTestNamePrefix group = true ->
  groupShouldBeDeleted c group since =
  (match activityLogsClient_ListComplete c (activityFilter since (resources.Name group)) with
   | (_, Some err) => (false, Some (Mask (Mask err)))
   | (eventIter, None) => (negb (NotDone eventIter), None)
   end,
   [ActivityLogsListComplete (activityFilter since (resources.Name group))]).
Proof.
  intros H. unfold groupShouldBeDeleted, groupHasActivity. rewrite H. simpl.
  destruct (activityLogsClient_ListComplete c _) as [eventIter [err|]]; reflexivity.
Qed.

Lemma deleteGroup_send_failed c name resp err :
  groupsClient_Delete c name = (resp, Some err) ->
  deleteGroup c name =
  (Some (Mask err), [GroupsDelete name; logDeletionFailed name err]).
Proof.
  intros H. unfold deleteGroup. rewrite H. reflexivity.
Qed.

Lemma deleteGroup_not_found c name resp res err :
  groupsClient_Delete c name = (resp, None) ->
  groupsClient_DeleteResponder c resp = (res, err) ->
  isNotFound res = true ->
  deleteGroup c name = (None, [GroupsDelete name; logDeleted name]).
Proof.
  intros H1 H2 H3. unfold deleteGroup. rewrite H1. simpl. rewrite H2, H3.
  reflexivity.
Qed.

Lemma deleteGroup_response_failed c name resp res err :
  groupsClient_Delete c name = (resp, None) ->
  groupsClient_DeleteResponder c resp = (res, Some err) ->
  isNotFound res = false ->
  deleteGroup c name =
  (Some (Mask err), [GroupsDelete name; logDeletionFailed name err]).
Proof.
  intros H1 H2 H3. unfold deleteGroup. rewrite H1. simpl. rewrite H2, H3.
  reflexivity.
Qed.

Lemma deleteGroup_deletions c name n :
  groupDeletions n (snd (deleteGroup c name)) =
  if String.eqb name n then 1 else 0.
Proof.
  unfold deleteGroup.
  destruct (groupsClient_Delete c name) as [resp [err|]]; simpl.
  - unfold groupDeletions. simpl. destruct (String.eqb name n); reflexivity.
  - destruct (groupsClient_DeleteResponder c resp) as [res [err|]];
      destruct (isNotFound res); unfold groupDeletions; simpl;
      destruct (String.eqb name n); reflexivity.
Qed.

(** One iteration of the loop, case by case. *)
Lemma cleanResourceGroupBody_eq c deadLine group :
  let name := resources.Name group in
  let filter := activityFilter deadLine name in
  cleanResourceGroupBody c deadLine group =
  if groupHasTestNamePrefix group then
    match activityLogsClient_ListComplete c filter with
    | (_, Some err) =>
        (None, [logChecking name; ActivityLogsListComplete filter;
                logSkipping name (Mask (Mask err))])
    | (eventIter, None) =>
        if NotDone eventIter
        then (None, [logChecking name; ActivityLogsListComplete filter])
        else (fst (deleteGroup c name),
              [logChecking name; ActivityLogsListComplete filter]
                ++ snd (deleteGroup c name))
    end
  else (None, [logChecking name]).
Proof.
  intros name filter. unfold cleanResourceGroupBody.
  destruct (groupHasTestNamePrefix group) eqn:Hp.
  - rewrite groupShouldBeDeleted_eligible by assumption. fold name filter.
    destruct (activityLogsClient_ListComplete c filter) as [eventIter [err|]];
      simpl; [reflexivity |].
    destruct (NotDone eventIter); simpl; [reflexivity |].
    destruct (deleteGroup c name); reflexivity.
  - rewrite groupShouldBeDeleted_not_eligible by assumption. reflexivity.
Qed.

(** The loop, one iteration at a time: a returned error ends it, otherwise
    it goes on with the next group. *)
Lemma cleanResourceGroupLoop_cons c deadLine group groupIter :
  cleanResourceGroupLoop c deadLine (group :: groupIter) =
  match fst (cleanResourceGroupBody c deadLine group) with
  | Some err => (Some err, snd (cleanResourceGroupBody c deadLine group))
  | None =>
      (fst (cleanResourceGroupLoop c deadLine groupIter),
       snd (cleanResourceGroupBody c deadLine group)
         ++ snd (cleanResourceGroupLoop c deadLine groupIter))
  end.
Proof.
  simpl. rewrite bind_eq.
  destruct (fst (cleanResourceGroupBody c deadLine group)); simpl.
  - rewrite app_nil_r. reflexivity.
  - reflexivity.
Qed.

(** The filter sent to the activity log names one group only. *)
Lemma activityFilter_inj since name1 name2 :
  activityFilter since name1 = activityFilter since name2 -> name1 = name2.
Proof.
  unfold activityFilter. intros H.
  apply strings_facts.append_inv_head in H.
  apply strings_facts.append_inv_head in H.
  apply strings_facts.append_inv_head in H.
  apply strings_facts.append_inv_tail in H. assumption.
Qed.

Lemma groupDecision_not_eligible c deadLine group :
  groupHasTestNamePrefix group = false -> groupDecision c deadLine group = false.
Proof.
  intros H. unfold groupDecision.
  rewrite groupShouldBeDeleted_not_eligible by assumption. reflexivity.
Qed.

(** An iteration asks for the deletion of its own group only, and only
    when [groupShouldBeDeleted] said so; then it asks once. *)
Lemma cleanResourceGroupBody_deletions c deadLine group n :
  groupDeletions n (snd (cleanResourceGroupBody c deadLine group)) =
  if String.eqb (resources.Name group) n && groupDecision c deadLine group
  then 1 else 0.
Proof.
  rewrite cleanResourceGroupBody_eq. unfold groupDecision.
  destruct (groupHasTestNamePrefix group) eqn:Hp.
  - rewrite groupShouldBeDeleted_eligible by assumption.
    destruct (activityLogsClient_ListComplete c _) as [eventIter [err|]]; simpl.
    + rewrite andb_false_r. reflexivity.
    + destruct (NotDone eventIter); simpl.
      * rewrite andb_false_r. reflexivity.
      * rewrite andb_true_r.
        change (groupDeletions n (snd (deleteGroup c (resources.Name group))) =
                if String.eqb (resources.Name group) n then 1 else 0).
        apply deleteGroup_deletions.
  - rewrite groupShouldBeDeleted_not_eligible by assumption. simpl.
    rewrite andb_false_r. reflexivity.
Qed.

(** An iteration queries the activity log for its own group only, and only
    when the name has a test prefix. *)
Lemma cleanResourceGroupBody_queries c deadLine group filter :
  In (ActivityLogsListComplete filter)
     (snd (cleanResourceGroupBody c deadLine group)) ->
  groupHasTestNamePrefix group = true /\
  filter = activityFilter deadLine (resources.Name group).
Proof.
  rewrite cleanResourceGroupBody_eq.
  destruct (groupHasTestNamePrefix group) eqn:Hp.
  - intros H. split; [reflexivity |].
    assert (forall t,
      (forall e, In e t -> isGroupsDelete (resources.Name group) e = true
                           \/ exists kv, e = Log kv) ->
      In (ActivityLogsListComplete filter)
         ([logChecking (resources.Name group);
           ActivityLogsListComplete
             (activityFilter deadLine (resources.Name group))] ++ t) ->
      filter = activityFilter deadLine (resources.Name group)) as Hgen.
    { intros t Ht [E | [E | HIn]].
      - discriminate.
      - congruence.
      - apply Ht in HIn. destruct HIn as [HIn | [kv HIn]]; discriminate. }
    destruct (activityLogsClient_ListComplete c _) as [eventIter [err|]].
    + apply (Hgen [logSkipping (resources.Name group) (Mask (Mask err))]);
        [| exact H].
      intros e [<- | []]. right. eexists. reflexivity.
    + destruct (NotDone eventIter).
      * apply (Hgen []); [intros e [] | rewrite app_nil_r; exact H].
      * apply (Hgen (snd (deleteGroup c (resources.Name group)))); [| exact H].
        clear. intros e. unfold deleteGroup.
        destruct (groupsClient_Delete c _) as [resp [err|]]; simpl.
        -- intros [<- | [<- | []]]; simpl.
           ++ left. apply String.eqb_refl.
           ++ right. eexists. reflexivity.
        -- destruct (groupsClient_DeleteResponder c resp) as [res [err|]];
             destruct (isNotFound res); simpl;
             (intros [<- | [<- | []]]; simpl;
              [left; apply String.eqb_refl | right; eexists; reflexivity]).
  - intros [E | []]. discriminate.
Qed.

(** *** The whole pass *)

Lemma cleanResourceGroup_eq c now :
  cleanResourceGroup c now =
  match groupsClient_ListComplete c with
  | (_, Some err) => (Some (Mask err), [GroupsListComplete])
  | (groupIter, None) =>
      (fst (cleanResourceGroupLoop c (now - gracePeriod) groupIter),
       GroupsListComplete
         :: snd (cleanResourceGroupLoop c (now - gracePeriod) groupIter))
  end.
Proof.
  unfold cleanResourceGroup.
  destruct (groupsClient_ListComplete c) as [groupIter [err|]]; simpl.
  - reflexivity.
  - destruct (cleanResourceGroupLoop c (now - gracePeriod)%Z groupIter).
    reflexivity.
Qed.

Lemma cleanResourceGroupLoop_trace_incl c deadLine groupIter e :
  In e (snd (cleanResourceGroupLoop c deadLine groupIter)) ->
  exists group,
    In group groupIter /\ In e (snd (cleanResourceGroupBody c deadLine group)).
Proof.
  induction groupIter as [|group groupIter IH].
  - intros [].
  - rewrite cleanResourceGroupLoop_cons.
    destruct (fst (cleanResourceGroupBody c deadLine group)); simpl.
    + intros H. exists group. split; [left; reflexivity | assumption].
    + intros H. apply in_app_or in H. destruct H as [H | H].
      * exists group. split; [left; reflexivity | assumption].
      * destruct (IH H) as (g & Hg & He). exists g. split; [right |]; assumption.
Qed.

Lemma cleanResourceGroupLoop_deletions_le c deadLine groupIter n :
  groupDeletions n (snd (cleanResourceGroupLoop c deadLine groupIter))
  <= occurrences n groupIter.
Proof.
  induction groupIter as [|group groupIter IH].
  - simpl. unfold groupDeletions. simpl. lia.
  - rewrite cleanResourceGroupLoop_cons.
    assert (groupDeletions n (snd (cleanResourceGroupBody c deadLine group))
            <= if String.eqb (resources.Name group) n then 1 else 0) as Hb.
    { rewrite cleanResourceGroupBody_deletions.
      destruct (String.eqb (resources.Name group) n);
        destruct (groupDecision c deadLine group); simpl; lia. }
    unfold occurrences in *. simpl.
    destruct (fst (cleanResourceGroupBody c deadLine group)); simpl;
      [| rewrite groupDeletions_app];
      destruct (String.eqb (resources.Name group) n); simpl; lia.
Qed.


(** A pass that returns nil has queried the activity log for every group
    of the listing whose name has a test prefix. *)
Lemma cleanResourceGroupLoop_complete c deadLine groupIter group :
  fst (cleanResourceGroupLoop c deadLine groupIter) = None ->
  In group groupIter ->
  groupHasTestNamePrefix group = true ->
  In (ActivityLogsListComplete (activityFilter deadLine (resources.Name group)))
     (snd (cleanResourceGroupLoop c deadLine groupIter)).
Proof.
  induction groupIter as [|group' groupIter IH]; intros Hnil Hin Hp;
    [destruct Hin |].
  rewrite cleanResourceGroupLoop_cons in *.
  destruct (fst (cleanResourceGroupBody c deadLine group')) eqn:Hr;
    [discriminate |].
  simpl in *. apply in_or_app. destruct Hin as [-> | Hin].
  - left. rewrite cleanResourceGroupBody_eq, Hp.
    destruct (activityLogsClient_ListComplete c _) as [eventIter [err|]];
      [| destruct (NotDone eventIter)]; simpl; auto.
  - right. apply IH; assumption.
Qed.

Lemma groupHasTestNamePrefix_eq group :
  groupHasTestNamePrefix group =
  strings.HasPrefix (resources.Name group) "ci-"
  || strings.HasPrefix (resources.Name group) "e2e".
Proof.
  unfold groupHasTestNamePrefix, prefixes. simpl. rewrite orb_false_r.
  reflexivity.
Qed.

Lemma groupDeletions_cons_other name e t :
  isGroupsDelete name e = false ->
  groupDeletions name (e :: t) = groupDeletions name t.
Proof.
  intros H. unfold groupDeletions. simpl. rewrite H. reflexivity.
Qed.

(** *** The claims on the resource-group reaper *)

(** C8. A group whose name starts neither with "ci-" nor with "e2e" is
    never deleted, whatever the activity log holds: its iteration ends
    after the "checking" debug line that every group gets, without a query
    to the activity log and without a word about the skip, and the whole
    pass neither asks for its deletion nor queries the activity log for
    it. *)
Theorem non_test_group_never_deleted (c : Cleaner) (now : Z) (name : string) :
  strings.HasPrefix name "ci-" = false ->
  strings.HasPrefix name "e2e" = false ->
  cleanResourceGroupBody c (now - gracePeriod) {| resources.Name := name |}
    = (None, [logChecking name]) /\
  groupDeletions name (snd (cleanResourceGroup c now)) = 0 /\
  ~ In (ActivityLogsListComplete (activityFilter (now - gracePeriod) name))
       (snd (cleanResourceGroup c now)).
Proof.
  intros Hci He2e.
  assert (groupHasTestNamePrefix {| resources.Name := name |} = false) as Hp.
  { rewrite groupHasTestNamePrefix_eq. simpl. rewrite Hci, He2e. reflexivity. }
  split; [| split].
  - rewrite cleanResourceGroupBody_eq. rewrite Hp. reflexivity.
  - rewrite cleanResourceGroup_eq.
    destruct (groupsClient_ListComplete c) as [groupIter [err|]]; simpl;
      [reflexivity |].
    rewrite groupDeletions_cons_other by reflexivity.
    induction groupIter as [|group groupIter IH]; [reflexivity |].
    rewrite cleanResourceGroupLoop_cons.
    assert (groupDeletions name
              (snd (cleanResourceGroupBody c (now - gracePeriod) group)) = 0) as Hb.
    { rewrite cleanResourceGroupBody_deletions.
      destruct (String.eqb_spec (resources.Name group) name) as [E | NE];
        [| reflexivity].
      destruct group as [n]. simpl in E. subst n.
      rewrite groupDecision_not_eligible by assumption. reflexivity. }
    destruct (fst (cleanResourceGroupBody c (now - gracePeriod) group)); simpl.
    + assumption.
    + rewrite groupDeletions_app, Hb, IH. reflexivity.
  - rewrite cleanResourceGroup_eq.
    destruct (groupsClient_ListComplete c) as [groupIter [err|]]; simpl.
    + intros [E | []]. discriminate.
    + intros [E | H]; [discriminate |].
      apply cleanResourceGroupLoop_trace_incl in H.
      destruct H as (group & _ & H).
      apply cleanResourceGroupBody_queries in H. destruct H as [Hg E].
      apply activityFilter_inj in E. destruct group as [n]. simpl in E.
      subst n. congruence.
Qed.

(** C9. When the activity-log query for a group fails, the iteration logs
    the error, asks for no deletion and returns nothing: the loop goes on
    with the groups that remain. *)
Theorem activity_query_failure_skips_group
        (c : Cleaner) (deadLine : Z) (group : resources.Group)
        (groupIter : list resources.Group)
        (eventIter : list EventData) (err : error) :
  groupHasTestNamePrefix group = true ->
  activityLogsClient_ListComplete c
    (activityFilter deadLine (resources.Name group)) = (eventIter, Some err) ->
  let name := resources.Name group in
  let events :=
    [logChecking name;
     ActivityLogsListComplete (activityFilter deadLine name);
     logSkipping name (Mask (Mask err))] in
  cleanResourceGroupBody c deadLine group = (None, events) /\
  groupDeletions name events = 0 /\
  cleanResourceGroupLoop c deadLine (group :: groupIter) =
    (fst (cleanResourceGroupLoop c deadLine groupIter),
     events ++ snd (cleanResourceGroupLoop c deadLine groupIter)).
Proof.
  intros Hp Hq name events.
  assert (cleanResourceGroupBody c deadLine group = (None, events)) as Hb.
  { rewrite cleanResourceGroupBody_eq. rewrite Hp, Hq. reflexivity. }
  split; [exact Hb | split].
  - reflexivity.
  - rewrite cleanResourceGroupLoop_cons, Hb. reflexivity.
Qed.

(** The test of lines 49-50: when [Delete] returned no error and the
    responder's result carries the status 404, the iteration logs the group
    as deleted and returns no error, whatever error the responder gave, and
    the loop goes on with the next group. *)
Lemma responder_not_found_is_success
      (c : Cleaner) (deadLine : Z) (group : resources.Group)
      (groupIter : list resources.Group)
      (respFuture : option http.Response) (res : autorest.Resp)
      (r : http.Response) (err : option error) :
  groupHasTestNamePrefix group = true ->
  activityLogsClient_ListComplete c
    (activityFilter deadLine (resources.Name group)) = ([], None) ->
  groupsClient_Delete c (resources.Name group) = (respFuture, None) ->
  groupsClient_DeleteResponder c respFuture = (res, err) ->
  autorest.Response res = Some r ->
  http.StatusCode r = http.StatusNotFound ->
  let name := resources.Name group in
  let events :=
    [logChecking name;
     ActivityLogsListComplete (activityFilter deadLine name);
     GroupsDelete name;
     logDeleted name] in
  cleanResourceGroupBody c deadLine group = (None, events) /\
  cleanResourceGroupLoop c deadLine (group :: groupIter) =
    (fst (cleanResourceGroupLoop c deadLine groupIter),
     events ++ snd (cleanResourceGroupLoop c deadLine groupIter)).
Proof.
  intros Hp Hq Hd Hr Hres Hcode name events.
  assert (isNotFound res = true) as Hnf.
  { unfold isNotFound. rewrite Hres, Hcode. reflexivity. }
  assert (cleanResourceGroupBody c deadLine group = (None, events)) as Hb.
  { rewrite cleanResourceGroupBody_eq. rewrite Hp, Hq. simpl.
    rewrite (deleteGroup_not_found c _ _ _ _ Hd Hr Hnf). reflexivity. }
  split; [exact Hb |].
  rewrite cleanResourceGroupLoop_cons, Hb. reflexivity.
Qed.

(** Lines 42-46 come before that test: an error returned by [Delete] ends
    the pass, whatever the response of the future, a 404 included; the
    status is never looked at on this path. *)
Lemma delete_error_aborts_whatever_the_status
      (c : Cleaner) (deadLine : Z) (group : resources.Group)
      (groupIter : list resources.Group)
      (respFuture : option http.Response) (err : error) :
  groupHasTestNamePrefix group = true ->
  activityLogsClient_ListComplete c
    (activityFilter deadLine (resources.Name group)) = ([], None) ->
  groupsClient_Delete c (resources.Name group) = (respFuture, Some err) ->
  let name := resources.Name group in
  cleanResourceGroupLoop c deadLine (group :: groupIter) =
    (Some (Mask err),
     [logChecking name;
      ActivityLogsListComplete (activityFilter deadLine name);
      GroupsDelete name;
      logDeletionFailed name err]).
Proof.
  intros Hp Hq Hd name. subst name.
  rewrite cleanResourceGroupLoop_cons, cleanResourceGroupBody_eq.
  rewrite Hp, Hq. simpl.
  rewrite (deleteGroup_send_failed c _ respFuture err Hd). reflexivity.
Qed.


End ResourceGroupFacts.

(** * delegatedns.go *)

Section DelegateDNSFacts.

Context {W : Collaborators}.

(** *** What one call of each function does *)

Lemma resolvesApiName_eq name :
  resolvesApiName name =
  (match dns_resolver_LookupHost [dnsServerAddress] 5 (apiName name) with
   | (addresses, Some err) =>
       if strings.Contains (Error err) dnsFailureError
       then (nonEmpty addresses, None)
       else (false, Some err)
   | (addresses, None) => (nonEmpty addresses, None)
   end,
   [LookupHost [dnsServerAddress] 5 (apiName name)]).
Proof.
  unfold resolvesApiName. simpl.
  destruct (dns_resolver_LookupHost _ _ _) as [addresses [err|]];
    [| reflexivity].
  destruct (strings.Contains (Error err) dnsFailureError); reflexivity.
Qed.

Lemma dnsRecordShouldBeDeleted_eq c dnsRecord since :
  let name := dns.Name dnsRecord in
  dnsRecordShouldBeDeleted c dnsRecord since =
  if isCIRecord name then
    match fst (resolvesApiName name) with
    | (_, Some err) =>
        ((false, None),
         [LookupHost [dnsServerAddress] 5 (apiName name); logUnexpected name err])
    | (resolves, None) =>
        ((negb resolves, None), [LookupHost [dnsServerAddress] 5 (apiName name)])
    end
  else ((false, None), []).
Proof.
  intros name. unfold dnsRecordShouldBeDeleted. fold name.
  destruct (isCIRecord name); simpl; [| reflexivity].
  rewrite resolvesApiName_eq. simpl.
  destruct (dns_resolver_LookupHost _ _ _) as [addresses [err|]];
    [| reflexivity].
  destruct (strings.Contains (Error err) dnsFailureError); reflexivity.
Qed.

(** [dnsRecordShouldBeDeleted] never returns an error. *)
Lemma dnsRecordShouldBeDeleted_no_error c dnsRecord since :
  snd (fst (dnsRecordShouldBeDeleted c dnsRecord since)) = None.
Proof.
  rewrite dnsRecordShouldBeDeleted_eq.
  destruct (isCIRecord _); [| reflexivity].
  destruct (fst (resolvesApiName _)) as [resolves [err|]]; reflexivity.
Qed.

(** One iteration of the loop, case by case. *)
Lemma cleanDelegateDNSRecordsBody_eq c deadLine lastError record :
  let name := dns.Name record in
  let decision := dnsRecordShouldBeDeleted c record deadLine in
  cleanDelegateDNSRecordsBody c deadLine lastError record =
  if fst (fst decision) then
    match dnsRecordSetsClient_Delete c resourceGroup zoneName name dns.NS
                                     (dns.Etag record) with
    | Some err =>
        (Some err,
         snd decision ++ [logHasToBeDeleted name; recordDeletion record;
                          logFailedToDelete name err; logSkippingRecord])
    | None =>
        (lastError,
         snd decision ++ [logHasToBeDeleted name; recordDeletion record;
                          logWasDeleted name])
    end
  else (lastError, snd decision ++ [logHasToBeKept name]).
Proof.
  intros name decision. unfold cleanDelegateDNSRecordsBody. fold name.
  pose proof (dnsRecordShouldBeDeleted_no_error c record deadLine) as Hne.
  fold decision in Hne |- *.
  destruct decision as [[del err] t]. simpl in Hne. subst err. simpl.
  destruct del; simpl; [| reflexivity].
  unfold recordDeletion. fold name.
  destruct (dnsRecordSetsClient_Delete c _ _ _ _ _); reflexivity.
Qed.

Lemma cleanDelegateDNSRecordsLoop_cons c deadLine lastError record recordsIter :
  let lastError' := fst (cleanDelegateDNSRecordsBody c deadLine lastError record) in
  cleanDelegateDNSRecordsLoop c deadLine lastError (record :: recordsIter) =
  (fst (cleanDelegateDNSRecordsLoop c deadLine lastError' recordsIter),
   snd (cleanDelegateDNSRecordsBody c deadLine lastError record)
     ++ snd (cleanDelegateDNSRecordsLoop c deadLine lastError' recordsIter)).
Proof.
  intros lastError'. simpl.
  destruct (cleanDelegateDNSRecordsBody c deadLine lastError record) as [le t].
  simpl in *. subst lastError'.
  destruct (cleanDelegateDNSRecordsLoop c deadLine le recordsIter). reflexivity.
Qed.

(** *** The whole pass *)

(** What an iteration emits does not depend on [lastError]. *)
Lemma cleanDelegateDNSRecordsBody_trace c deadLine lastError record :
  snd (cleanDelegateDNSRecordsBody c deadLine lastError record) =
  snd (cleanDelegateDNSRecordsBody c deadLine None record).
Proof.
  rewrite !cleanDelegateDNSRecordsBody_eq.
  destruct (fst (fst (dnsRecordShouldBeDeleted c record deadLine)));
    [| reflexivity].
  destruct (dnsRecordSetsClient_Delete c _ _ _ _ _); reflexivity.
Qed.

(** The loop never stops early: it emits the events of every record of
    the listing, in order. *)
Lemma cleanDelegateDNSRecordsLoop_trace c deadLine recordsIter : forall lastError,
  snd (cleanDelegateDNSRecordsLoop c deadLine lastError recordsIter) =
  flat_map (fun record =>
              snd (cleanDelegateDNSRecordsBody c deadLine None record))
           recordsIter.
Proof.
  induction recordsIter as [|record recordsIter IH]; intros lastError.
  - simpl. destruct lastError; reflexivity.
  - rewrite cleanDelegateDNSRecordsLoop_cons. simpl.
    rewrite IH, cleanDelegateDNSRecordsBody_trace. reflexivity.
Qed.

(** An iteration changes [lastError] only when a deletion fails. *)
Lemma cleanDelegateDNSRecordsBody_lastError c deadLine lastError record :
  fst (cleanDelegateDNSRecordsBody c deadLine lastError record) =
  match deleteFailure c deadLine record with
  | Some err => Some err
  | None => lastError
  end.
Proof.
  rewrite cleanDelegateDNSRecordsBody_eq. unfold deleteFailure.
  destruct (fst (fst (dnsRecordShouldBeDeleted c record deadLine)));
    [| reflexivity].
  destruct (dnsRecordSetsClient_Delete c _ _ _ _ _); reflexivity.
Qed.

(** The loop returns, masked, the error of the last failed deletion, or
    the [lastError] it started from when no deletion failed. *)
Lemma cleanDelegateDNSRecordsLoop_result c deadLine recordsIter : forall lastError,
  fst (cleanDelegateDNSRecordsLoop c deadLine lastError recordsIter) =
  option_map Mask match lastFailure c deadLine recordsIter with
                  | Some err => Some err
                  | None => lastError
                  end.
Proof.
  induction recordsIter as [|record recordsIter IH]; intros lastError.
  - simpl. destruct lastError; reflexivity.
  - rewrite cleanDelegateDNSRecordsLoop_cons. simpl. rewrite IH.
    rewrite cleanDelegateDNSRecordsBody_lastError.
    destruct (lastFailure c deadLine recordsIter); [reflexivity |].
    destruct (deleteFailure c deadLine record); reflexivity.
Qed.

Lemma cleanDelegateDNSRecords_eq c now :
  cleanDelegateDNSRecords c now =
  match dnsRecordSetsClient_ListAllByDNSZoneComplete c resourceGroup zoneName with
  | (_, Some err) =>
      (Some (Mask err), [RecordSetsListAllByDNSZone resourceGroup zoneName])
  | (recordsIter, None) =>
      (fst (cleanDelegateDNSRecordsLoop c (now - gracePeriod) None recordsIter),
       RecordSetsListAllByDNSZone resourceGroup zoneName
         :: snd (cleanDelegateDNSRecordsLoop c (now - gracePeriod) None recordsIter))
  end.
Proof.
  unfold cleanDelegateDNSRecords.
  destruct (dnsRecordSetsClient_ListAllByDNSZoneComplete c _ _)
    as [recordsIter [err|]]; simpl.
  - reflexivity.
  - destruct (cleanDelegateDNSRecordsLoop c (now - gracePeriod)%Z None recordsIter).
    reflexivity.
Qed.

(** An iteration asks for the deletion of its own record only, and exactly
    when [dnsRecordShouldBeDeleted] said so. *)
Lemma cleanDelegateDNSRecordsBody_deletion c deadLine lastError record record' :
  In (recordDeletion record')
     (snd (cleanDelegateDNSRecordsBody c deadLine lastError record)) <->
  recordDeletion record' = recordDeletion record /\
  fst (fst (dnsRecordShouldBeDeleted c record deadLine)) = true.
Proof.
  rewrite cleanDelegateDNSRecordsBody_eq.
  assert (~ In (recordDeletion record')
               (snd (dnsRecordShouldBeDeleted c record deadLine))) as Hd.
  { rewrite dnsRecordShouldBeDeleted_eq.
    destruct (isCIRecord _); [| intros []].
    destruct (fst (resolvesApiName _)) as [resolves [err|]]; simpl;
      intuition discriminate. }
  destruct (fst (fst (dnsRecordShouldBeDeleted c record deadLine))).
  - destruct (dnsRecordSetsClient_Delete c _ _ _ _ _); simpl;
      rewrite in_app_iff; simpl; split.
    + intros [H | [H | [H | [H | [H | []]]]]];
        try contradiction; try discriminate. auto.
    + intros [H _]. right. right. left. auto.
    + intros [H | [H | [H | [H | []]]]];
        try contradiction; try discriminate. auto.
    + intros [H _]. right. right. left. auto.
  - simpl. rewrite in_app_iff. simpl. split.
    + intros [H | [H | []]]; [contradiction | discriminate].
    + intros [_ H]. discriminate.
Qed.

(** [dnsRecordShouldBeDeleted] says "delete" exactly for the records with
    a CI name whose probe answered "does not resolve" without an error. *)
Lemma dnsRecordShouldBeDeleted_true c dnsRecord since :
  fst (fst (dnsRecordShouldBeDeleted c dnsRecord since)) = true <->
  isCIRecord (dns.Name dnsRecord) = true /\
  fst (resolvesApiName (dns.Name dnsRecord)) = (false, None).
Proof.
  rewrite dnsRecordShouldBeDeleted_eq.
  destruct (isCIRecord (dns.Name dnsRecord)).
  - destruct (fst (resolvesApiName (dns.Name dnsRecord))) as [resolves [err|]];
      simpl.
    + split; [discriminate | intros [_ H]; discriminate].
    + destruct resolves; simpl.
      * split; [discriminate | intros [_ H]; discriminate].
      * split; auto.
  - simpl. split; [discriminate | intros [H _]; discriminate].
Qed.

(** The probe answers "does not resolve" without an error exactly when the
    resolver returned no address, with no error or with SERVFAIL. *)
Lemma resolvesApiName_zero_addresses name :
  fst (resolvesApiName name) = (false, None) <->
  exists err,
    dns_resolver_LookupHost [dnsServerAddress] 5 (apiName name) = ([], err) /\
    forall e, err = Some e -> strings.Contains (Error e) dnsFailureError = true.
Proof.
  rewrite resolvesApiName_eq. simpl.
  destruct (dns_resolver_LookupHost _ _ _) as [addresses [err|]].
  - destruct (strings.Contains (Error err) dnsFailureError) eqn:Hc.
    + destruct addresses; simpl; split.
      * intros _. exists (Some err). split; [reflexivity |].
        intros e [= <-]. assumption.
      * reflexivity.
      * discriminate.
      * intros (err' & H & _). discriminate.
    + split; [discriminate |].
      intros (err' & H1 & H). injection H1 as Ha He.
      specialize (H err (eq_sym He)). congruence.
  - destruct addresses; simpl; split.
    + intros _. exists None. split; [reflexivity | discriminate].
    + reflexivity.
    + discriminate.
    + intros (err' & H & _). discriminate.
Qed.

(** *** The claims on the DNS-record reaper *)

(** C2. For every record of the zone's listing, the pass asks for the
    deletion of the record if and only if [isCIRecord] accepts its name
    and the resolution of [api.<name>.azure.gigantic.io] returned zero
    addresses, that is, [resolvesApiName] answered "does not resolve"
    without an error; otherwise the record is kept.  The probe gives that
    answer exactly when the resolver returned no address, with no error
    or with SERVFAIL. *)
Theorem record_deleted_iff_ci_and_unresolved
        (c : Cleaner) (now : Z) (recordsIter : list dns.RecordSet)
        (record : dns.RecordSet) :
  dnsRecordSetsClient_ListAllByDNSZoneComplete c resourceGroup zoneName
    = (recordsIter, None) ->
  In record recordsIter ->
  (In (recordDeletion record) (snd (cleanDelegateDNSRecords c now)) <->
   isCIRecord (dns.Name record) = true /\
   fst (resolvesApiName (dns.Name record)) = (false, None)) /\
  (fst (resolvesApiName (dns.Name record)) = (false, None) <->
   exists err,
     dns_resolver_LookupHost [dnsServerAddress] 5 (apiName (dns.Name record))
       = ([], err) /\
     forall e, err = Some e -> strings.Contains (Error e) dnsFailureError = true).
Proof.
  intros Hl Hin. split; [| apply resolvesApiName_zero_addresses].
  rewrite cleanDelegateDNSRecords_eq, Hl. simpl.
  rewrite cleanDelegateDNSRecordsLoop_trace, in_flat_map.
  rewrite <- (dnsRecordShouldBeDeleted_true c record (now - gracePeriod)).
  split.
  - intros [E | (record' & _ & H)]; [discriminate |].
    apply cleanDelegateDNSRecordsBody_deletion in H. destruct H as [E H].
    apply dnsRecordShouldBeDeleted_true in H.
    apply dnsRecordShouldBeDeleted_true.
    injection E as -> _. assumption.
  - intros H. right. exists record. split; [assumption |].
    apply cleanDelegateDNSRecordsBody_deletion. auto.
Qed.

(** C10. The decision on a DNS record does not depend on the instant
    [since]: [dnsRecordShouldBeDeleted] gives the same result and emits
    the same events for any two values of it, and so the whole pass does
    the same whatever the clock says. *)
Theorem dns_decision_ignores_since
        (c : Cleaner) (dnsRecord : dns.RecordSet) (since1 since2 now1 now2 : Z) :
  dnsRecordShouldBeDeleted c dnsRecord since1
    = dnsRecordShouldBeDeleted c dnsRecord since2 /\
  cleanDelegateDNSRecords c now1 = cleanDelegateDNSRecords c now2.
Proof.
  split; [reflexivity |].
  rewrite !cleanDelegateDNSRecords_eq.
  destruct (dnsRecordSetsClient_ListAllByDNSZoneComplete c _ _)
    as [recordsIter [err|]]; [reflexivity |].
  assert (forall lastError,
            cleanDelegateDNSRecordsLoop c (now1 - gracePeriod) lastError recordsIter
            = cleanDelegateDNSRecordsLoop c (now2 - gracePeriod) lastError recordsIter)
    as Hloop.
  { induction recordsIter as [|record recordsIter IH]; intros lastError.
    - reflexivity.
    - simpl.
      change (cleanDelegateDNSRecordsBody c (now1 - gracePeriod) lastError record)
        with (cleanDelegateDNSRecordsBody c (now2 - gracePeriod) lastError record).
      destruct (cleanDelegateDNSRecordsBody c (now2 - gracePeriod) lastError record)
        as [lastError' t].
      simpl. rewrite IH. reflexivity. }
  rewrite Hloop. reflexivity.
Qed.

(** C7. When the resolver answers with an error, the probe looks at the
    message: with SERVFAIL in it (an answer that carries no address) the
    probe returns what it returns for zero addresses, without an error, and
    the record is deleted when its name is a CI name; with any other error
    the record is kept. *)
Theorem servfail_counts_as_zero_addresses
        (c : Cleaner) (since : Z) (lastError : option error)
        (dnsRecord : dns.RecordSet) (addresses : list string) (err : error) :
  let name := dns.Name dnsRecord in
  let servfail := strings.Contains (Error err) dnsFailureError in
  dns_resolver_LookupHost [dnsServerAddress] 5 (apiName name)
    = (addresses, Some err) ->
  (servfail = true -> addresses = []) ->
  fst (resolvesApiName name)
    = (if servfail then (nonEmpty (@nil string), None) else (false, Some err)) /\
  fst (dnsRecordShouldBeDeleted c dnsRecord since)
    = (isCIRecord name && servfail, None) /\
  (In (recordDeletion dnsRecord)
      (snd (cleanDelegateDNSRecordsBody c since lastError dnsRecord))
   <-> isCIRecord name = true /\ servfail = true).
Proof.
  intros name servfail Hl Hempty.
  assert (fst (resolvesApiName name)
          = (if servfail then (nonEmpty (@nil string), None) else (false, Some err)))
    as Hprobe.
  { rewrite resolvesApiName_eq. simpl. rewrite Hl. fold servfail.
    destruct servfail; [| reflexivity].
    rewrite Hempty by reflexivity. reflexivity. }
  assert (fst (dnsRecordShouldBeDeleted c dnsRecord since)
          = (isCIRecord name && servfail, None)) as Hdec.
  { rewrite dnsRecordShouldBeDeleted_eq. fold name. rewrite Hprobe.
    destruct (isCIRecord name); [| reflexivity].
    destruct servfail; reflexivity. }
  split; [exact Hprobe | split; [exact Hdec |]].
  rewrite cleanDelegateDNSRecordsBody_deletion, Hdec. simpl.
  rewrite andb_true_iff. tauto.
Qed.

(** C3, as the code has it. A record with a CI name whose resolution fails
    with an error other than SERVFAIL is kept, with a warning logged; the
    error is not returned by [dnsRecordShouldBeDeleted], so [lastError]
    stays what it was and the loop goes on with the next record. *)
Theorem resolution_error_keeps_record
        (c : Cleaner) (deadLine : Z) (lastError : option error)
        (record : dns.RecordSet) (recordsIter : list dns.RecordSet)
        (addresses : list string) (err : error) :
  let name := dns.Name record in
  let probe :=
    [LookupHost [dnsServerAddress] 5 (apiName name); logUnexpected name err] in
  isCIRecord name = true ->
  dns_resolver_LookupHost [dnsServerAddress] 5 (apiName name)
    = (addresses, Some err) ->
  strings.Contains (Error err) dnsFailureError = false ->
  dnsRecordShouldBeDeleted c record deadLine = ((false, None), probe) /\
  cleanDelegateDNSRecordsBody c deadLine lastError record
    = (lastError, probe ++ [logHasToBeKept name]) /\
  ~ In (recordDeletion record) (probe ++ [logHasToBeKept name]) /\
  cleanDelegateDNSRecordsLoop c deadLine lastError (record :: recordsIter)
    = (fst (cleanDelegateDNSRecordsLoop c deadLine lastError recordsIter),
       (probe ++ [logHasToBeKept name])
         ++ snd (cleanDelegateDNSRecordsLoop c deadLine lastError recordsIter)).
Proof.
  intros name probe Hci Hl Hc.
  assert (dnsRecordShouldBeDeleted c record deadLine = ((false, None), probe))
    as Hdec.
  { rewrite dnsRecordShouldBeDeleted_eq. fold name. rewrite Hci.
    rewrite resolvesApiName_eq. simpl. rewrite Hl, Hc. reflexivity. }
  assert (cleanDelegateDNSRecordsBody c deadLine lastError record
          = (lastError, probe ++ [logHasToBeKept name])) as Hb.
  { rewrite cleanDelegateDNSRecordsBody_eq, Hdec. reflexivity. }
  split; [exact Hdec | split; [exact Hb | split]].
  - simpl. intuition discriminate.
  - rewrite cleanDelegateDNSRecordsLoop_cons, Hb. reflexivity.
Qed.

End DelegateDNSFacts.

(** * The two reapers side by side *)

Section BothReapers.

Context {W : Collaborators}.

(** C4. A failed deletion ends the pass over the resource groups at once,
    with the error masked and nothing done for the groups that remain; a
    failed deletion of a DNS record does not end the pass over the records:
    every remaining record gets its iteration, and the pass then returns,
    masked, the error of the last deletion that failed. *)
Theorem delete_failure_aborts_groups_but_not_records
        (c : Cleaner) (deadLine : Z)
        (group : resources.Group) (groupIter : list resources.Group)
        (groupErr : error)
        (lastError : option error)
        (record : dns.RecordSet) (recordsIter : list dns.RecordSet)
        (recordErr : error) :
  let gname := resources.Name group in
  let rname := dns.Name record in
  groupHasTestNamePrefix group = true ->
  activityLogsClient_ListComplete c (activityFilter deadLine gname) = ([], None) ->
  groupDeleteFails c gname groupErr ->
  isCIRecord rname = true ->
  fst (resolvesApiName rname) = (false, None) ->
  dnsRecordSetsClient_Delete c resourceGroup zoneName rname dns.NS
                             (dns.Etag record) = Some recordErr ->
  cleanResourceGroupLoop c deadLine (group :: groupIter)
    = (Some (Mask groupErr),
       [logChecking gname;
        ActivityLogsListComplete (activityFilter deadLine gname);
        GroupsDelete gname;
        logDeletionFailed gname groupErr]) /\
  cleanDelegateDNSRecordsLoop c deadLine lastError (record :: recordsIter)
    = (Some (Mask match lastFailure c deadLine recordsIter with
                  | Some err => err
                  | None => recordErr
                  end),
       [LookupHost [dnsServerAddress] 5 (apiName rname);
        logHasToBeDeleted rname;
        recordDeletion record;
        logFailedToDelete rname recordErr;
        logSkippingRecord]
         ++ flat_map (fun record' =>
                        snd (cleanDelegateDNSRecordsBody c deadLine None record'))
                     recordsIter).
Proof.
  intros gname rname Hp Hq Hfail Hci Hprobe Hdel. split.
  - assert (deleteGroup c gname
            = (Some (Mask groupErr),
               [GroupsDelete gname; logDeletionFailed gname groupErr])) as Hd.
    { destruct Hfail as [(resp & H) | (resp & res & H1 & H2 & H3)].
      - eapply deleteGroup_send_failed. eassumption.
      - eapply deleteGroup_response_failed; eassumption. }
    rewrite cleanResourceGroupLoop_cons, cleanResourceGroupBody_eq.
    fold gname. rewrite Hp, Hq. simpl. rewrite Hd. reflexivity.
  - assert (dnsRecordShouldBeDeleted c record deadLine
            = ((true, None), [LookupHost [dnsServerAddress] 5 (apiName rname)]))
      as Hdec.
    { rewrite dnsRecordShouldBeDeleted_eq. fold rname. rewrite Hci, Hprobe.
      reflexivity. }
    assert (cleanDelegateDNSRecordsBody c deadLine lastError record
            = (Some recordErr,
               [LookupHost [dnsServerAddress] 5 (apiName rname);
                logHasToBeDeleted rname;
                recordDeletion record;
                logFailedToDelete rname recordErr;
                logSkippingRecord])) as Hb.
    { rewrite cleanDelegateDNSRecordsBody_eq, Hdec. simpl. fold rname.
      rewrite Hdel. reflexivity. }
    rewrite cleanDelegateDNSRecordsLoop_cons, Hb. simpl fst. simpl snd.
    rewrite cleanDelegateDNSRecordsLoop_result, cleanDelegateDNSRecordsLoop_trace.
    destruct (lastFailure c deadLine recordsIter); reflexivity.
Qed.

End BothReapers.

(** * The claims at work on the example *)


(** The group "prod-shared" is never inspected and never deleted. *)
Lemma non_test_group_never_deleted_witness :
  groupDeletions "prod-shared"
    (snd (cleanResourceGroup
            (exampleCleaner quietActivity accepted exampleResponder recordDeleted)
            0)) = 0.
Proof.
  apply (@non_test_group_never_deleted exampleWorld
           (exampleCleaner quietActivity accepted exampleResponder recordDeleted)
           0 "prod-shared").
  - reflexivity.
  - reflexivity.
Defined.

(** With the activity log down, the pass deletes nothing and returns no
    error. *)
Lemma activity_query_failure_skips_group_witness :
  cleanResourceGroupLoop
    (exampleCleaner brokenActivity accepted exampleResponder recordDeleted) 0
    [ {| resources.Name := "ci-build-42" |}; {| resources.Name := "prod-shared" |} ]
  = (None,
     [ @logChecking exampleWorld "ci-build-42";
       ActivityLogsListComplete (@activityFilter exampleWorld 0 "ci-build-42");
       @logSkipping exampleWorld "ci-build-42" "activity log unavailable";
       @logChecking exampleWorld "prod-shared" ]).
Proof.
  apply (@activity_query_failure_skips_group exampleWorld
           (exampleCleaner brokenActivity accepted exampleResponder recordDeleted)
           0 {| resources.Name := "ci-build-42" |}
           [ {| resources.Name := "prod-shared" |} ]
           [] "activity log unavailable").
  - reflexivity.
  - reflexivity.
Defined.

(** C5. The code at work where the claim fails: the group "ci-build-42"
    is gone and the deletion answers 404, which [Delete] reports as its
    error.  The 404 is not taken for a success: the pass logs "deletion
    failed", returns the error to the caller, and ends before "prod-shared"
    and "e2e-busy" are looked at. *)
Theorem delete_not_found_aborts_the_pass :
  cleanResourceGroup
    (exampleCleaner quietActivity notFound exampleResponder recordDeleted) 0
  = (Some "autorest/azure: Service returned an error. Status=404 Code=ResourceGroupNotFound",
     [ GroupsListComplete;
       @logChecking exampleWorld "ci-build-42";
       ActivityLogsListComplete (@activityFilter exampleWorld (- gracePeriod) "ci-build-42");
       GroupsDelete "ci-build-42";
       @logDeletionFailed exampleWorld "ci-build-42"
         "autorest/azure: Service returned an error. Status=404 Code=ResourceGroupNotFound" ]).
Proof. vm_compute. reflexivity. Qed.

(** The record "e2eabcd.westeurope" gets SERVFAIL: the pass asks for its
    deletion. *)
Lemma record_deleted_iff_ci_and_unresolved_witness :
  In (recordDeletion {| dns.Name := "e2eabcd.westeurope"; dns.Etag := "etag-2" |})
     (snd (cleanDelegateDNSRecords
             (exampleCleaner quietActivity accepted exampleResponder recordDeleted)
             0)).
Proof.
  destruct (@record_deleted_iff_ci_and_unresolved exampleWorld
              (exampleCleaner quietActivity accepted exampleResponder recordDeleted)
              0
              [ {| dns.Name := "e2eterraform-xyz"; dns.Etag := "etag-1" |};
                {| dns.Name := "e2eabcd.westeurope"; dns.Etag := "etag-2" |};
                {| dns.Name := "e2eterraform-old"; dns.Etag := "etag-3" |};
                {| dns.Name := "www"; dns.Etag := "etag-4" |} ]
              {| dns.Name := "e2eabcd.westeurope"; dns.Etag := "etag-2" |})
    as [Hdeleted _].
  - reflexivity.
  - right. left. reflexivity.
  - apply Hdeleted. split; vm_compute; reflexivity.
Defined.

(** SERVFAIL for "e2eabcd.westeurope": the decision is "delete", without an
    error. *)
Lemma servfail_counts_as_zero_addresses_witness :
  fst (dnsRecordShouldBeDeleted
         (exampleCleaner quietActivity accepted exampleResponder recordDeleted)
         {| dns.Name := "e2eabcd.westeurope"; dns.Etag := "etag-2" |} 0)
  = (true, None).
Proof.
  destruct (@servfail_counts_as_zero_addresses exampleWorld
              (exampleCleaner quietActivity accepted exampleResponder recordDeleted)
              0 None
              {| dns.Name := "e2eabcd.westeurope"; dns.Etag := "etag-2" |}
              [] "SERVFAIL")
    as (_ & Hdecision & _).
  - reflexivity.
  - intros _. reflexivity.
  - rewrite Hdecision. vm_compute. reflexivity.
Defined.

(** The lookup for "e2eterraform-old" times out: the record is kept and
    [lastError] stays nil. *)
Lemma resolution_error_keeps_record_witness :
  cleanDelegateDNSRecordsBody
    (exampleCleaner quietActivity accepted exampleResponder recordDeleted) 0 None
    {| dns.Name := "e2eterraform-old"; dns.Etag := "etag-3" |}
  = (None,
     [ LookupHost ["8.8.8.8"] 5 "api.e2eterraform-old.azure.gigantic.io";
       @logUnexpected exampleWorld "e2eterraform-old" "i/o timeout";
       logHasToBeKept "e2eterraform-old" ]).
Proof.
  apply (@resolution_error_keeps_record exampleWorld
           (exampleCleaner quietActivity accepted exampleResponder recordDeleted)
           0 None
           {| dns.Name := "e2eterraform-old"; dns.Etag := "etag-3" |}
           [ {| dns.Name := "www"; dns.Etag := "etag-4" |} ]
           [] "i/o timeout").
  - reflexivity.
  - reflexivity.
  - reflexivity.
Defined.

(** A refused deletion ends the pass over the groups before "prod-shared"
    is looked at. *)
Lemma delete_failure_aborts_groups_but_not_records_witness :
  cleanResourceGroupLoop
    (exampleCleaner quietActivity refused exampleResponder recordDeleteFails) 0
    [ {| resources.Name := "ci-build-42" |}; {| resources.Name := "prod-shared" |} ]
  = (Some "connection refused",
     [ @logChecking exampleWorld "ci-build-42";
       ActivityLogsListComplete (@activityFilter exampleWorld 0 "ci-build-42");
       GroupsDelete "ci-build-42";
       @logDeletionFailed exampleWorld "ci-build-42" "connection refused" ]).
Proof.
  apply (@delete_failure_aborts_groups_but_not_records exampleWorld
           (exampleCleaner quietActivity refused exampleResponder recordDeleteFails)
           0 {| resources.Name := "ci-build-42" |}
           [ {| resources.Name := "prod-shared" |} ]
           "connection refused"
           None
           {| dns.Name := "e2eabcd.westeurope"; dns.Etag := "etag-2" |}
           [ {| dns.Name := "e2eterraform-old"; dns.Etag := "etag-3" |};
             {| dns.Name := "www"; dns.Etag := "etag-4" |} ]
           "precondition failed: e2eabcd.westeurope").
  - reflexivity.
  - reflexivity.
  - left. exists None. reflexivity.
  - reflexivity.
  - reflexivity.
  - reflexivity.
Defined.

(** C3, as stated, fails here: the record "e2eterraform-old" has a CI name
    and its lookup fails with "i/o timeout", an error without SERVFAIL in
    it; no deletion fails; and yet the pass returns nil, not that error. *)
Lemma resolution_error_is_not_returned :
  In {| dns.Name := "e2eterraform-old"; dns.Etag := "etag-3" |}
     (fst (dnsRecordSetsClient_ListAllByDNSZoneComplete
             (exampleCleaner quietActivity accepted exampleResponder recordDeleted)
             resourceGroup zoneName)) /\
  isCIRecord "e2eterraform-old" = true /\
  @dns_resolver_LookupHost exampleWorld [dnsServerAddress] 5
     (apiName "e2eterraform-old") = ([], Some "i/o timeout") /\
  strings.Contains "i/o timeout" dnsFailureError = false /\
  fst (cleanDelegateDNSRecords
         (exampleCleaner quietActivity accepted exampleResponder recordDeleted) 0)
  = None.
Proof.
  vm_compute. repeat split; auto.
Qed.

(** * The two passes, run on the example *)

Example isCIRecord_examples :
  map isCIRecord
      [ "e2eterraform-xyz"; "e2eabcd.westeurope"; "e2e.germanywestcentral";
        "e2ea.b.westeurope"; "e2eabcd.westeurope2"; "xe2eabcd.westeurope";
        "e2ewesteurope"; "e2eterrafor"; "www" ]
  = [ true; true; true; true; false; false; false; false; false ].
Proof. vm_compute. reflexivity. Qed.

(** A newline between "e2e" and the region: [.] does not match it. *)
Example isCIRecord_newline :
  isCIRecord (String "e" (String "2" (String "e"
                (String regexp.newline ".westeurope")))) = false.
Proof. vm_compute. reflexivity. Qed.

(** The record "e2eterraform-xyz" resolves to 10.0.0.1: kept. *)
Example resolving_record_is_kept :
  fst (dnsRecordShouldBeDeleted
         (exampleCleaner quietActivity accepted exampleResponder recordDeleted)
         {| dns.Name := "e2eterraform-xyz"; dns.Etag := "etag-1" |} 0)
  = (false, None).
Proof. vm_compute. reflexivity. Qed.

(** The pass over the groups: "ci-build-42" is deleted, "prod-shared" is
    only looked at, "e2e-busy" is queried and kept. *)
Example cleanResourceGroup_example :
  cleanResourceGroup
    (exampleCleaner quietActivity accepted exampleResponder recordDeleted) 0
  = (None,
     [ GroupsListComplete;
       @logChecking exampleWorld "ci-build-42";
       ActivityLogsListComplete (@activityFilter exampleWorld (- gracePeriod) "ci-build-42");
       GroupsDelete "ci-build-42";
       @logDeleted exampleWorld "ci-build-42";
       @logChecking exampleWorld "prod-shared";
       @logChecking exampleWorld "e2e-busy";
       ActivityLogsListComplete (@activityFilter exampleWorld (- gracePeriod) "e2e-busy") ]).
Proof. vm_compute. reflexivity. Qed.

(** The pass over the records when every deletion fails: the failure on
    "e2eabcd.westeurope" does not stop the loop, the time-out on
    "e2eterraform-old" is only a warning, and the pass returns the error of
    the failed deletion. *)
Example cleanDelegateDNSRecords_example :
  cleanDelegateDNSRecords
    (exampleCleaner quietActivity accepted exampleResponder recordDeleteFails) 0
  = (Some "precondition failed: e2eabcd.westeurope",
     [ RecordSetsListAllByDNSZone "root_dns_zone_rg" "azure.gigantic.io";
       LookupHost ["8.8.8.8"] 5 "api.e2eterraform-xyz.azure.gigantic.io";
       logHasToBeKept "e2eterraform-xyz";
       LookupHost ["8.8.8.8"] 5 "api.e2eabcd.westeurope.azure.gigantic.io";
       logHasToBeDeleted "e2eabcd.westeurope";
       RecordSetsDelete "root_dns_zone_rg" "azure.gigantic.io"
                        "e2eabcd.westeurope" dns.NS "etag-2";
       @logFailedToDelete exampleWorld "e2eabcd.westeurope"
                          "precondition failed: e2eabcd.westeurope";
       logSkippingRecord;
       LookupHost ["8.8.8.8"] 5 "api.e2eterraform-old.azure.gigantic.io";
       @logUnexpected exampleWorld "e2eterraform-old" "i/o timeout";
       logHasToBeKept "e2eterraform-old";
       logHasToBeKept "www" ]).
Proof. vm_compute. reflexivity. Qed.

(** * More on resourcegroup.go: what a whole pass does and never does *)

Section ResourceGroupPass.

Context {W : Collaborators}.

Lemma deleteGroup_cases c name :
  deleteGroup c name = (None, [GroupsDelete name; logDeleted name]) \/
  exists err,
    groupDeleteFails c name err /\
    deleteGroup c name =
    (Some (Mask err), [GroupsDelete name; logDeletionFailed name err]).
Proof.
  unfold deleteGroup, groupDeleteFails.
  destruct (groupsClient_Delete c name) as [respFuture [err|]] eqn:Hd; simpl.
  - right. exists err. split; [left; exists respFuture; reflexivity | reflexivity].
  - destruct (groupsClient_DeleteResponder c respFuture) as [res [err|]] eqn:Hr;
      destruct (isNotFound res) eqn:Hnf; simpl; auto.
    right. exists err. split; [| reflexivity].
    right. exists respFuture, res. auto.
Qed.

(** The five ways an iteration of the loop can go. *)
Lemma cleanResourceGroupBody_cases c deadLine group :
  let name := resources.Name group in
  let filter := activityFilter deadLine name in
  let body := cleanResourceGroupBody c deadLine group in
  (groupHasTestNamePrefix group = false /\ body = (None, [logChecking name])) \/
  (groupHasTestNamePrefix group = true /\
   exists eventIter err,
     activityLogsClient_ListComplete c filter = (eventIter, Some err) /\
     body = (None, [logChecking name; ActivityLogsListComplete filter;
                    logSkipping name (Mask (Mask err))])) \/
  (groupHasTestNamePrefix group = true /\
   exists event eventIter,
     activityLogsClient_ListComplete c filter = (event :: eventIter, None) /\
     body = (None, [logChecking name; ActivityLogsListComplete filter])) \/
  (groupHasTestNamePrefix group = true /\
   activityLogsClient_ListComplete c filter = ([], None) /\
   body = (None, [logChecking name; ActivityLogsListComplete filter;
                  GroupsDelete name; logDeleted name])) \/
  (groupHasTestNamePrefix group = true /\
   activityLogsClient_ListComplete c filter = ([], None) /\
   exists err,
     groupDeleteFails c name err /\
     body = (Some (Mask err),
             [logChecking name; ActivityLogsListComplete filter;
              GroupsDelete name; logDeletionFailed name err])).
Proof.
  intros name filter body. subst body.
  rewrite cleanResourceGroupBody_eq. fold name filter.
  destruct (groupHasTestNamePrefix group); [| left; auto].
  right.
  destruct (activityLogsClient_ListComplete c filter) as [eventIter [err|]].
  - left. split; [reflexivity |]. exists eventIter, err. auto.
  - right. destruct eventIter as [|event eventIter]; simpl.
    + right. destruct (deleteGroup_cases c name) as [E | (err & Hf & E)];
        rewrite E; simpl.
      * left. auto.
      * right. split; [reflexivity |]. split; [reflexivity |].
        exists err. auto.
    + left. split; [reflexivity |]. exists event, eventIter. auto.
Qed.

Lemma guardedBy_app {A} (act : A -> Event) (guard : A -> list Event) t t' :
  (forall a, guard a <> []) ->
  guardedBy act guard t -> guardedBy act guard t' ->
  guardedBy act guard (t ++ t').
Proof.
  intros Hg Ht Ht' t1 t2 a E.
  apply app_eq_app in E. destruct E as [l [[E1 E2] | [E1 E2]]].
  - destruct l as [|e l]; simpl in E2.
    + destruct (Ht' [] t2 a (eq_sym E2)) as [t0 E0].
      destruct t0; simpl in E0.
      * symmetry in E0. apply Hg in E0. contradiction.
      * discriminate.
    + injection E2 as <- ->. apply (Ht t1 l a). assumption.
  - destruct (Ht' l t2 a E2) as [t0 ->].
    exists (t ++ t0). rewrite E1, app_assoc. reflexivity.
Qed.

(** In an iteration the request to delete comes right after the query. *)
Lemma cleanResourceGroupBody_guarded c deadLine group :
  guardedBy GroupsDelete
            (fun name => [ActivityLogsListComplete (activityFilter deadLine name)])
            (snd (cleanResourceGroupBody c deadLine group)).
Proof.
  intros t1 t2 n E.
  destruct (cleanResourceGroupBody_cases c deadLine group)
    as [[_ B] | [(_ & ev & err & _ & B) | [(_ & e & ev & _ & B)
       | [(_ & _ & B) | (_ & _ & err & _ & B)]]]];
    rewrite B in E; simpl in E;
    unfold logChecking, logSkipping, logDeleted, logDeletionFailed in E;
    destruct t1 as [|e1 [|e2 [|e3 [|e4 [|e5 t1]]]]]; simpl in E;
    try discriminate E;
    injection E; intros; subst;
    exists [logChecking (resources.Name group)]; reflexivity.
Qed.

Lemma cleanResourceGroupLoop_guarded c deadLine groupIter :
  guardedBy GroupsDelete
            (fun name => [ActivityLogsListComplete (activityFilter deadLine name)])
            (snd (cleanResourceGroupLoop c deadLine groupIter)).
Proof.
  induction groupIter as [|group groupIter IH].
  - intros t1 t2 n E. destruct t1; discriminate.
  - rewrite cleanResourceGroupLoop_cons.
    destruct (fst (cleanResourceGroupBody c deadLine group)); simpl.
    + apply cleanResourceGroupBody_guarded.
    + apply guardedBy_app; [discriminate | | assumption].
      apply cleanResourceGroupBody_guarded.
Qed.

(** A loop that returns nil went through every group of the listing. *)
Lemma cleanResourceGroupLoop_all_processed c deadLine groupIter group e :
  fst (cleanResourceGroupLoop c deadLine groupIter) = None ->
  In group groupIter ->
  In e (snd (cleanResourceGroupBody c deadLine group)) ->
  In e (snd (cleanResourceGroupLoop c deadLine groupIter)).
Proof.
  induction groupIter as [|group' groupIter IH]; intros Hnil Hin He;
    [destruct Hin |].
  rewrite cleanResourceGroupLoop_cons in *.
  destruct (fst (cleanResourceGroupBody c deadLine group')) eqn:Hr;
    [discriminate |].
  simpl in *. apply in_or_app. destruct Hin as [-> | Hin]; auto.
Qed.

(** A loop that returns an error stopped on a failed deletion. *)
Lemma cleanResourceGroupLoop_error c deadLine groupIter e :
  fst (cleanResourceGroupLoop c deadLine groupIter) = Some e ->
  exists group err t0,
    In group groupIter /\
    e = Mask err /\
    groupDeleteFails c (resources.Name group) err /\
    snd (cleanResourceGroupLoop c deadLine groupIter) =
    t0 ++ [GroupsDelete (resources.Name group);
           logDeletionFailed (resources.Name group) err].
Proof.
  induction groupIter as [|group groupIter IH]; [discriminate |].
  rewrite cleanResourceGroupLoop_cons.
  destruct (cleanResourceGroupBody_cases c deadLine group)
    as [[_ B] | [(_ & ev & err & _ & B) | [(_ & e' & ev & _ & B)
       | [(_ & _ & B) | (_ & _ & err & Hf & B)]]]];
    rewrite B; simpl.
  1-4: intros H; destruct (IH H) as (g & err' & t0 & Hin & -> & Hf & ->);
       exists g, err';
       eexists; (split; [right; assumption |]);
       (split; [reflexivity |]); (split; [assumption |]);
       rewrite !app_comm_cons; reflexivity.
  intros [= <-]. exists group, err.
  exists [logChecking (resources.Name group);
          ActivityLogsListComplete
            (activityFilter deadLine (resources.Name group))].
  split; [left; reflexivity |]. auto.
Qed.

End ResourceGroupPass.

(** ** Properties of the pass over the resource groups *)

(** X1. The pass asks for the deletion of a group only if the group is in
    the listing, its name has a test prefix, and the activity log, asked
    for the events of that group since the deadline (the clock minus the
    grace period), answered with no event and no error. *)
Theorem group_delete_requires_quiet_listed_test_group {W : Collaborators}
        (c : Cleaner) (now : Z) (name : string) :
  In (GroupsDelete name) (snd (cleanResourceGroup c now)) ->
  exists groupIter,
    groupsClient_ListComplete c = (groupIter, None) /\
    In {| resources.Name := name |} groupIter /\
    groupHasTestNamePrefix {| resources.Name := name |} = true /\
    activityLogsClient_ListComplete c
      (activityFilter (now - gracePeriod) name) = ([], None).
Proof.
  rewrite cleanResourceGroup_eq.
  destruct (groupsClient_ListComplete c) as [groupIter [err|]]; simpl.
  - intros [E | []]. discriminate.
  - intros [E | H]; [discriminate |].
    apply cleanResourceGroupLoop_trace_incl in H.
    destruct H as (group & Hin & H). exists groupIter.
    destruct group as [n]. 
    destruct (cleanResourceGroupBody_cases c (now - gracePeriod)
                                           {| resources.Name := n |})
      as [[_ B] | [(_ & ev & err & _ & B) | [(_ & e' & ev & _ & B)
         | [(Hp & Hq & B) | (Hp & Hq & err & _ & B)]]]];
      rewrite B in H; simpl in H;
      unfold logChecking, logSkipping, logDeleted, logDeletionFailed in H;
      repeat (destruct H as [H | H]; try discriminate H); try contradiction;
      injection H as ->; auto.
Qed.

Lemma group_delete_requires_quiet_listed_test_group_witness :
  exists groupIter,
    groupsClient_ListComplete exampleQuiet = (groupIter, None) /\
    In {| resources.Name := "ci-build-42" |} groupIter /\
    groupHasTestNamePrefix {| resources.Name := "ci-build-42" |} = true /\
    activityLogsClient_ListComplete exampleQuiet
      (@activityFilter exampleWorld (0 - gracePeriod) "ci-build-42") = ([], None).
Proof.
  apply (@group_delete_requires_quiet_listed_test_group
           exampleWorld exampleQuiet 0 "ci-build-42").
  vm_compute. right. right. right. left. reflexivity.
Defined.

(** X2. In the trace of a pass, every request to delete a group comes
    right after the activity-log query for that same group: no group is
    deleted unchecked, and nothing happens between the check and the
    deletion. *)
Theorem group_delete_follows_activity_query {W : Collaborators}
        (c : Cleaner) (now : Z) (t1 t2 : Trace) (name : string) :
  snd (cleanResourceGroup c now) = t1 ++ GroupsDelete name :: t2 ->
  exists t0,
    t1 = t0 ++ [ActivityLogsListComplete (activityFilter (now - gracePeriod) name)].
Proof.
  rewrite cleanResourceGroup_eq.
  destruct (groupsClient_ListComplete c) as [groupIter [err|]]; simpl; intros E.
  - destruct t1 as [|e [|e' t1]]; discriminate.
  - destruct t1 as [|e t1]; [discriminate |].
    injection E as <- E.
    apply cleanResourceGroupLoop_guarded in E. destruct E as [t0 ->].
    exists (GroupsListComplete :: t0). reflexivity.
Qed.

Lemma group_delete_follows_activity_query_witness :
  exists t0,
    [GroupsListComplete; @logChecking exampleWorld "ci-build-42";
     ActivityLogsListComplete (@activityFilter exampleWorld (0 - gracePeriod) "ci-build-42")]
    = t0 ++ [ActivityLogsListComplete
               (@activityFilter exampleWorld (0 - gracePeriod) "ci-build-42")].
Proof.
  apply (@group_delete_follows_activity_query exampleWorld exampleQuiet 0
           [GroupsListComplete; @logChecking exampleWorld "ci-build-42";
            ActivityLogsListComplete
              (@activityFilter exampleWorld (0 - gracePeriod) "ci-build-42")]
           [@logDeleted exampleWorld "ci-build-42";
            @logChecking exampleWorld "prod-shared";
            @logChecking exampleWorld "e2e-busy";
            ActivityLogsListComplete
              (@activityFilter exampleWorld (0 - gracePeriod) "e2e-busy")]
           "ci-build-42").
  vm_compute. reflexivity.
Defined.

(** X3. A pass never asks for the deletion of a name more often than the
    name occurs in the listing; in particular it never asks for the
    deletion of a group that is not listed. *)
Theorem group_deleted_at_most_as_listed {W : Collaborators}
        (c : Cleaner) (now : Z) (name : string) :
  groupDeletions name (snd (cleanResourceGroup c now))
  <= occurrences name (fst (groupsClient_ListComplete c)).
Proof.
  rewrite cleanResourceGroup_eq.
  destruct (groupsClient_ListComplete c) as [groupIter [err|]]; simpl.
  - unfold groupDeletions. simpl. lia.
  - rewrite groupDeletions_cons_other by reflexivity.
    apply cleanResourceGroupLoop_deletions_le.
Qed.

(** X4. When the pass returns nil, it has asked for the deletion of every
    group of the listing that has a test prefix and no activity since the
    deadline. *)
Theorem nil_pass_deleted_every_quiet_test_group {W : Collaborators}
        (c : Cleaner) (now : Z) (group : resources.Group) :
  fst (cleanResourceGroup c now) = None ->
  In group (fst (groupsClient_ListComplete c)) ->
  groupHasTestNamePrefix group = true ->
  activityLogsClient_ListComplete c
    (activityFilter (now - gracePeriod) (resources.Name group)) = ([], None) ->
  In (GroupsDelete (resources.Name group)) (snd (cleanResourceGroup c now)).
Proof.
  rewrite cleanResourceGroup_eq.
  destruct (groupsClient_ListComplete c) as [groupIter [err|]]; simpl;
    [discriminate |].
  intros Hnil Hin Hp Hq. right.
  apply (cleanResourceGroupLoop_all_processed c _ _ group); try assumption.
  rewrite cleanResourceGroupBody_eq, Hp, Hq. simpl.
  destruct (deleteGroup_cases c (resources.Name group)) as [E | (err & _ & E)];
    rewrite E; simpl; auto.
Qed.

Lemma nil_pass_deleted_every_quiet_test_group_witness :
  In (GroupsDelete "ci-build-42") (snd (cleanResourceGroup exampleQuiet 0)).
Proof.
  apply (@nil_pass_deleted_every_quiet_test_group exampleWorld exampleQuiet 0
           {| resources.Name := "ci-build-42" |}).
  - reflexivity.
  - left. reflexivity.
  - reflexivity.
  - reflexivity.
Defined.

(** X5. An error returned by the pass is the masked error of the listing,
    and then nothing else was done, or the masked error of a failed
    deletion of a listed group, and then that deletion and its log line are
    the last two events of the pass. *)
Theorem group_pass_error_is_listing_or_failed_delete {W : Collaborators}
        (c : Cleaner) (now : Z) (e : error) :
  fst (cleanResourceGroup c now) = Some e ->
  (exists groupIter err,
      groupsClient_ListComplete c = (groupIter, Some err) /\
      e = Mask err /\
      snd (cleanResourceGroup c now) = [GroupsListComplete]) \/
  (exists groupIter group err t0,
      groupsClient_ListComplete c = (groupIter, None) /\
      In group groupIter /\
      e = Mask err /\
      groupDeleteFails c (resources.Name group) err /\
      snd (cleanResourceGroup c now) =
      t0 ++ [GroupsDelete (resources.Name group);
             logDeletionFailed (resources.Name group) err]).
Proof.
  rewrite cleanResourceGroup_eq.
  destruct (groupsClient_ListComplete c) as [groupIter [err|]]; simpl.
  - intros [= <-]. left. exists groupIter, err. auto.
  - intros H. right. apply cleanResourceGroupLoop_error in H.
    destruct H as (group & err & t0 & Hin & -> & Hf & ->).
    exists groupIter, group, err, (GroupsListComplete :: t0). auto.
Qed.

Lemma group_pass_error_is_listing_or_failed_delete_witness :
  (exists groupIter err,
      groupsClient_ListComplete exampleRefused = (groupIter, Some err) /\
      "connection refused" = @Mask exampleWorld err /\
      snd (cleanResourceGroup exampleRefused 0) = [GroupsListComplete]) \/
  (exists groupIter group err t0,
      groupsClient_ListComplete exampleRefused = (groupIter, None) /\
      In group groupIter /\
      "connection refused" = @Mask exampleWorld err /\
      groupDeleteFails exampleRefused (resources.Name group) err /\
      snd (cleanResourceGroup exampleRefused 0) =
      t0 ++ [GroupsDelete (resources.Name group);
             @logDeletionFailed exampleWorld (resources.Name group) err]).
Proof.
  apply (@group_pass_error_is_listing_or_failed_delete
           exampleWorld exampleRefused 0 "connection refused").
  reflexivity.
Defined.

(** X6. The loop over a listing made of two parts is the loop over the
    first part, followed, unless the first returned an error, by the loop
    over the second part. *)
Theorem cleanResourceGroupLoop_app {W : Collaborators}
        (c : Cleaner) (deadLine : Z) (groupIter1 groupIter2 : list resources.Group) :
  cleanResourceGroupLoop c deadLine (groupIter1 ++ groupIter2) =
  match fst (cleanResourceGroupLoop c deadLine groupIter1) with
  | Some err => cleanResourceGroupLoop c deadLine groupIter1
  | None =>
      (fst (cleanResourceGroupLoop c deadLine groupIter2),
       snd (cleanResourceGroupLoop c deadLine groupIter1)
         ++ snd (cleanResourceGroupLoop c deadLine groupIter2))
  end.
Proof.
  induction groupIter1 as [|group groupIter1 IH].
  - simpl. destruct (cleanResourceGroupLoop c deadLine groupIter2). reflexivity.
  - rewrite <- app_comm_cons. rewrite !cleanResourceGroupLoop_cons.
    destruct (fst (cleanResourceGroupBody c deadLine group)); simpl;
      [reflexivity |].
    rewrite IH.
    destruct (fst (cleanResourceGroupLoop c deadLine groupIter1)) eqn:E1; simpl.
    + rewrite E1. reflexivity.
    + rewrite app_assoc. reflexivity.
Qed.

(** X7. The pass queries the activity log only for groups of the listing
    whose name has a test prefix, and always with the deadline of the
    pass: the clock minus the grace period. *)
Theorem activity_queries_only_for_listed_test_groups {W : Collaborators}
        (c : Cleaner) (now : Z) (filter : string) :
  In (ActivityLogsListComplete filter) (snd (cleanResourceGroup c now)) ->
  exists group,
    In group (fst (groupsClient_ListComplete c)) /\
    groupHasTestNamePrefix group = true /\
    filter = activityFilter (now - gracePeriod) (resources.Name group).
Proof.
  rewrite cleanResourceGroup_eq.
  destruct (groupsClient_ListComplete c) as [groupIter [err|]]; simpl.
  - intros [E | []]. discriminate.
  - intros [E | H]; [discriminate |].
    apply cleanResourceGroupLoop_trace_incl in H.
    destruct H as (group & Hin & H).
    apply cleanResourceGroupBody_queries in H. exists group. tauto.
Qed.

Lemma activity_queries_only_for_listed_test_groups_witness :
  exists group,
    In group (fst (groupsClient_ListComplete exampleQuiet)) /\
    groupHasTestNamePrefix group = true /\
    @activityFilter exampleWorld (0 - gracePeriod) "e2e-busy"
    = @activityFilter exampleWorld (0 - gracePeriod) (resources.Name group).
Proof.
  apply (@activity_queries_only_for_listed_test_groups exampleWorld exampleQuiet 0).
  vm_compute. do 7 right. left. reflexivity.
Defined.


Lemma groupDeleteFails_deleteGroup {W : Collaborators} (c : Cleaner)
      (name : string) (err : error) :
  groupDeleteFails c name err -> fst (deleteGroup c name) = Some (Mask err).
Proof.
  intros [(resp & H) | (resp & res & H1 & H2 & H3)].
  - rewrite (deleteGroup_send_failed c name resp err H). reflexivity.
  - rewrite (deleteGroup_response_failed c name resp res err H1 H2 H3).
    reflexivity.
Qed.

(** An iteration returns nil unless it asked for a deletion that failed. *)
Lemma cleanResourceGroupBody_nil {W : Collaborators} (c : Cleaner)
      (deadLine : Z) (group : resources.Group) :
  fst (cleanResourceGroupBody c deadLine group) = None <->
  (groupHasTestNamePrefix group = true ->
   activityLogsClient_ListComplete c
     (activityFilter deadLine (resources.Name group)) = ([], None) ->
   forall err, ~ groupDeleteFails c (resources.Name group) err).
Proof.
  rewrite cleanResourceGroupBody_eq.
  destruct (groupHasTestNamePrefix group).
  - destruct (activityLogsClient_ListComplete c _) as [[|event eventIter] [err|]];
      simpl; try (split; [intros _ _ H; discriminate | reflexivity]).
    split.
    + intros H _ _ err Hf. apply groupDeleteFails_deleteGroup in Hf. congruence.
    + intros H.
      destruct (deleteGroup_cases c (resources.Name group))
        as [E | (err & Hf & E)].
      * rewrite E. reflexivity.
      * exfalso. apply (H eq_refl eq_refl err). assumption.
  - simpl. split; [intros _ H; discriminate | reflexivity].
Qed.

Lemma cleanResourceGroupLoop_nil {W : Collaborators} (c : Cleaner)
      (deadLine : Z) (groupIter : list resources.Group) :
  fst (cleanResourceGroupLoop c deadLine groupIter) = None <->
  forall group,
    In group groupIter -> fst (cleanResourceGroupBody c deadLine group) = None.
Proof.
  induction groupIter as [|group groupIter IH].
  - simpl. split; [intros _ g [] | reflexivity].
  - rewrite cleanResourceGroupLoop_cons.
    destruct (fst (cleanResourceGroupBody c deadLine group)) eqn:Hb; simpl.
    + split; [discriminate |]. intros H.
      rewrite <- Hb. apply H. left. reflexivity.
    + rewrite IH. split.
      * intros H g [<- | Hin]; auto.
      * intros H g Hin. apply H. right. assumption.
Qed.

(** X18. The pass over the groups returns nil exactly when the listing
    succeeded and no deletion it had to ask for fails: for every group of
    the listing with a test prefix and no activity since the deadline, the
    deletion does not fail.  A deletion fails when [Delete] returns an
    error, whatever the status of the response, or when the responder
    returns an error and its response is not a 404.  Failed activity-log
    queries do not count. *)
Theorem group_pass_nil_iff_no_failed_deletion {W : Collaborators}
        (c : Cleaner) (now : Z) :
  fst (cleanResourceGroup c now) = None <->
  exists groupIter,
    groupsClient_ListComplete c = (groupIter, None) /\
    forall group err,
      In group groupIter ->
      groupHasTestNamePrefix group = true ->
      activityLogsClient_ListComplete c
        (activityFilter (now - gracePeriod) (resources.Name group)) = ([], None) ->
      ~ groupDeleteFails c (resources.Name group) err.
Proof.
  rewrite cleanResourceGroup_eq.
  destruct (groupsClient_ListComplete c) as [groupIter [err|]]; simpl.
  - split; [discriminate | intros (l & H & _); discriminate].
  - rewrite cleanResourceGroupLoop_nil. split.
    + intros H. exists groupIter. split; [reflexivity |].
      intros group err Hin Hp Hq.
      apply (proj1 (cleanResourceGroupBody_nil c _ group) (H group Hin) Hp Hq).
    + intros (l & [= <-] & H) group Hin.
      apply cleanResourceGroupBody_nil. intros Hp Hq err.
      apply (H group err Hin Hp Hq).
Qed.

(** * Strings: prefixes and substrings *)

Module strings_shape.

(** [strings.HasPrefix(s, p)]: [s] is [p] followed by something. *)
Lemma prefix_iff (p s : string) :
  String.prefix p s = true <-> exists rest, s = (p ++ rest)%string.
Proof.
  revert s. induction p as [|a p IH]; intros s.
  - split; [intros _; exists s; reflexivity | intros _; destruct s; reflexivity].
  - destruct s as [|b s].
    + split; [discriminate | intros [rest H]; discriminate].
    + change (String.prefix (String a p) (String b s))
        with (if ascii_dec a b then String.prefix p s else false).
      destruct (ascii_dec a b) as [-> | NE].
      * rewrite IH. split; intros [rest H]; exists rest.
        -- rewrite H. reflexivity.
        -- injection H as H. assumption.
      * split; [discriminate |]. intros [rest H]. injection H as H1 H2.
        congruence.
Qed.

Lemma Contains_unfold (s substr : string) :
  strings.Contains s substr =
  String.prefix substr s ||
  match s with
  | EmptyString => false
  | String _ s' => strings.Contains s' substr
  end.
Proof. destruct s; reflexivity. Qed.

(** [strings.Contains(s, substr)]: [substr] occurs somewhere in [s]. *)
Lemma Contains_iff (s substr : string) :
  strings.Contains s substr = true <->
  exists pre post, s = (pre ++ substr ++ post)%string.
Proof.
  split.
  - induction s as [|a s IH]; rewrite Contains_unfold, orb_true_iff.
    + intros [H | H]; [| discriminate].
      apply prefix_iff in H. destruct H as [rest H].
      exists EmptyString, rest. assumption.
    + intros [H | H].
      * apply prefix_iff in H. destruct H as [rest H].
        exists EmptyString, rest. assumption.
      * destruct (IH H) as (pre & post & ->).
        exists (String a pre), post. reflexivity.
  - intros (pre & post & ->). induction pre as [|a pre IH].
    + rewrite Contains_unfold. simpl.
      replace (String.prefix substr (substr ++ post)) with true; [reflexivity |].
      symmetry. apply prefix_iff. exists post. reflexivity.
    + rewrite Contains_unfold. simpl. rewrite IH. apply orb_true_r.
Qed.

End strings_shape.

(** * More on delegatedns.go: what a whole pass does and never does *)

Section DelegateDNSPass.

Context {W : Collaborators}.

(** The five ways an iteration of the loop can go. *)
Lemma cleanDelegateDNSRecordsBody_cases c deadLine lastError record :
  let name := dns.Name record in
  let lookup := LookupHost [dnsServerAddress] 5 (apiName name) in
  let body := cleanDelegateDNSRecordsBody c deadLine lastError record in
  (isCIRecord name = false /\ body = (lastError, [logHasToBeKept name])) \/
  (isCIRecord name = true /\
   exists resolves err,
     fst (resolvesApiName name) = (resolves, Some err) /\
     body = (lastError, [lookup; logUnexpected name err; logHasToBeKept name])) \/
  (isCIRecord name = true /\
   fst (resolvesApiName name) = (true, None) /\
   body = (lastError, [lookup; logHasToBeKept name])) \/
  (isCIRecord name = true /\
   fst (resolvesApiName name) = (false, None) /\
   dnsRecordSetsClient_Delete c resourceGroup zoneName name dns.NS
                              (dns.Etag record) = None /\
   body = (lastError, [lookup; logHasToBeDeleted name; recordDeletion record;
                       logWasDeleted name])) \/
  (isCIRecord name = true /\
   fst (resolvesApiName name) = (false, None) /\
   exists err,
     dnsRecordSetsClient_Delete c resourceGroup zoneName name dns.NS
                                (dns.Etag record) = Some err /\
     body = (Some err, [lookup; logHasToBeDeleted name; recordDeletion record;
                        logFailedToDelete name err; logSkippingRecord])).
Proof.
  intros name lookup body. subst body.
  rewrite cleanDelegateDNSRecordsBody_eq, dnsRecordShouldBeDeleted_eq.
  fold name lookup.
  destruct (isCIRecord name); [| left; auto].
  right.
  destruct (fst (resolvesApiName name)) as [resolves [err|]]; simpl.
  - left. split; [reflexivity |]. exists resolves, err. auto.
  - right. destruct resolves; simpl; [left; auto |].
    right.
    destruct (dnsRecordSetsClient_Delete c _ _ _ _ _) as [err|].
    + right. split; [reflexivity |]. split; [reflexivity |]. exists err. auto.
    + left. auto.
Qed.

Lemma cleanDelegateDNSRecords_trace c now e :
  In e (snd (cleanDelegateDNSRecords c now)) ->
  e = RecordSetsListAllByDNSZone resourceGroup zoneName \/
  exists recordsIter record,
    dnsRecordSetsClient_ListAllByDNSZoneComplete c resourceGroup zoneName
      = (recordsIter, None) /\
    In record recordsIter /\
    In e (snd (cleanDelegateDNSRecordsBody c (now - gracePeriod) None record)).
Proof.
  rewrite cleanDelegateDNSRecords_eq.
  destruct (dnsRecordSetsClient_ListAllByDNSZoneComplete c _ _)
    as [recordsIter [err|]]; simpl.
  - intros [E | []]. auto.
  - intros [E | H]; [auto |]. right.
    rewrite cleanDelegateDNSRecordsLoop_trace, in_flat_map in H.
    destruct H as (record & Hin & H). exists recordsIter, record. auto.
Qed.

(** The name of a record can be read off the host name that is looked up. *)
Lemma apiName_inj name1 name2 : apiName name1 = apiName name2 -> name1 = name2.
Proof.
  unfold apiName. intros H.
  apply strings_facts.append_inv_head in H.
  apply strings_facts.append_inv_tail in H. assumption.
Qed.

(** In an iteration the request to delete a record comes right after the
    lookup of its host name and the line that announces the deletion. *)
Lemma cleanDelegateDNSRecordsBody_guarded c deadLine lastError record :
  guardedBy recordDeletion
            (fun record' =>
               [LookupHost [dnsServerAddress] 5 (apiName (dns.Name record'));
                logHasToBeDeleted (dns.Name record')])
            (snd (cleanDelegateDNSRecordsBody c deadLine lastError record)).
Proof.
  intros t1 t2 record' E.
  destruct (cleanDelegateDNSRecordsBody_cases c deadLine lastError record)
    as [[_ B] | [(_ & r & err & _ & B) | [(_ & _ & B)
       | [(_ & _ & _ & B) | (_ & _ & err & _ & B)]]]];
    rewrite B in E; simpl in E;
    unfold logHasToBeKept, logUnexpected, logHasToBeDeleted, logWasDeleted,
           logFailedToDelete, logSkippingRecord, recordDeletion in E;
    destruct t1 as [|e1 [|e2 [|e3 [|e4 [|e5 [|e6 t1]]]]]]; simpl in E;
    try discriminate E;
    injection E; intros; subst; exists [];
    match goal with
    | H : dns.Name _ = dns.Name _ |- _ => rewrite H
    end; reflexivity.
Qed.

Lemma cleanDelegateDNSRecordsLoop_guarded c deadLine recordsIter : forall lastError,
  guardedBy recordDeletion
            (fun record' =>
               [LookupHost [dnsServerAddress] 5 (apiName (dns.Name record'));
                logHasToBeDeleted (dns.Name record')])
            (snd (cleanDelegateDNSRecordsLoop c deadLine lastError recordsIter)).
Proof.
  induction recordsIter as [|record recordsIter IH]; intros lastError.
  - intros t1 t2 n E. simpl in E.
    destruct lastError; destruct t1; discriminate.
  - rewrite cleanDelegateDNSRecordsLoop_cons. simpl.
    apply guardedBy_app; [intros r; discriminate | | apply IH].
    apply cleanDelegateDNSRecordsBody_guarded.
Qed.

Lemma lastFailure_None c deadLine recordsIter :
  lastFailure c deadLine recordsIter = None <->
  forall record, In record recordsIter -> deleteFailure c deadLine record = None.
Proof.
  induction recordsIter as [|record recordsIter IH]; simpl.
  - split; [intros _ r [] | reflexivity].
  - destruct (lastFailure c deadLine recordsIter) as [err|].
    + split; [discriminate |]. intros H.
      apply IH. intros r Hin. apply H. right. assumption.
    + destruct IH as [IH _]. split.
      * intros H r [<- | Hin]; auto.
      * intros H. apply H. left. reflexivity.
Qed.

(** The last failed deletion: a failure with no failure after it. *)
Lemma lastFailure_Some c deadLine recordsIter err :
  lastFailure c deadLine recordsIter = Some err ->
  exists before record after,
    recordsIter = before ++ record :: after /\
    deleteFailure c deadLine record = Some err /\
    forall record', In record' after -> deleteFailure c deadLine record' = None.
Proof.
  induction recordsIter as [|record recordsIter IH]; simpl; [discriminate |].
  destruct (lastFailure c deadLine recordsIter) as [err'|] eqn:Hl.
  - intros [= ->]. destruct (IH eq_refl) as (before & r & after & -> & Hf & Hn).
    exists (record :: before), r, after. auto.
  - intros Hf. exists [], record, recordsIter.
    split; [reflexivity |]. split; [assumption |].
    apply lastFailure_None. assumption.
Qed.

Lemma deleteFailure_eq c deadLine record :
  deleteFailure c deadLine record =
  if isCIRecord (dns.Name record) then
    match fst (resolvesApiName (dns.Name record)) with
    | (false, None) =>
        dnsRecordSetsClient_Delete c resourceGroup zoneName (dns.Name record)
                                   dns.NS (dns.Etag record)
    | _ => None
    end
  else None.
Proof.
  unfold deleteFailure. rewrite dnsRecordShouldBeDeleted_eq.
  destruct (isCIRecord (dns.Name record)); [| reflexivity].
  destruct (fst (resolvesApiName (dns.Name record))) as [[|] [err|]];
    reflexivity.
Qed.

(** The lookups of an iteration: one for a CI name, none otherwise. *)
Lemma cleanDelegateDNSRecordsBody_lookups c deadLine lastError record :
  filter isLookupHost
         (snd (cleanDelegateDNSRecordsBody c deadLine lastError record)) =
  if isCIRecord (dns.Name record)
  then [LookupHost [dnsServerAddress] 5 (apiName (dns.Name record))]
  else [].
Proof.
  destruct (cleanDelegateDNSRecordsBody_cases c deadLine lastError record)
    as [[Hci B] | [(Hci & r & err & _ & B) | [(Hci & _ & B)
       | [(Hci & _ & _ & B) | (Hci & _ & err & _ & B)]]]];
    rewrite B, Hci; reflexivity.
Qed.

Lemma cleanDelegateDNSRecords_lookups c deadLine recordsIter :
  filter isLookupHost
    (flat_map (fun record =>
                 snd (cleanDelegateDNSRecordsBody c deadLine None record))
              recordsIter) =
  map (fun record =>
         LookupHost ["8.8.8.8"] 5 ("api." ++ dns.Name record ++ ".azure.gigantic.io"))
      (filter (fun record => isCIRecord (dns.Name record)) recordsIter).
Proof.
  induction recordsIter as [|record recordsIter IH]; [reflexivity |].
  simpl. rewrite filter_app, cleanDelegateDNSRecordsBody_lookups, IH.
  destruct (isCIRecord (dns.Name record)); reflexivity.
Qed.

Lemma isCIRecord_e2e s : isCIRecord s = true -> strings.HasPrefix s "e2e" = true.
Proof.
  unfold isCIRecord.
  destruct (strings.HasPrefix s e2eterraformPrefix) eqn:Hp.
  - intros _. apply strings_shape.prefix_iff in Hp. destruct Hp as [rest ->].
    apply strings_shape.prefix_iff. exists ("terraform" ++ rest)%string.
    reflexivity.
  - intros H. apply regexp_facts.Match_ContainsMatch in H.
    apply ciRecordRe_language in H. destruct H as (mid & region & E & _).
    simpl in E. destruct s as [|a [|b [|c' s]]]; simpl in E; try discriminate.
    injection E as -> -> -> _.
    apply strings_shape.prefix_iff. exists s. reflexivity.
Qed.

End DelegateDNSPass.

(** ** Properties of the pass over the DNS records *)

(** X8. The pass asks for the deletion of a record set only in the
    resource group and zone of the delegated DNS, only of type NS, and only
    for a record of the listing, with the etag the listing gave, whose name
    is a CI name and whose host name the probe found not to resolve. *)
Theorem record_delete_requires_listed_unresolved_ci_record {W : Collaborators}
        (c : Cleaner) (now : Z)
        (rg zone name : string) (recordType : dns.RecordType) (etag : string) :
  In (RecordSetsDelete rg zone name recordType etag)
     (snd (cleanDelegateDNSRecords c now)) ->
  rg = "root_dns_zone_rg" /\ zone = "azure.gigantic.io" /\ recordType = dns.NS /\
  exists recordsIter,
    dnsRecordSetsClient_ListAllByDNSZoneComplete c resourceGroup zoneName
      = (recordsIter, None) /\
    In {| dns.Name := name; dns.Etag := etag |} recordsIter /\
    isCIRecord name = true /\
    fst (resolvesApiName name) = (false, None).
Proof.
  intros H. apply cleanDelegateDNSRecords_trace in H.
  destruct H as [E | (recordsIter & record & Hl & Hin & H)]; [discriminate |].
  destruct record as [n e].
  destruct (cleanDelegateDNSRecordsBody_cases c (now - gracePeriod) None
                                              {| dns.Name := n; dns.Etag := e |})
    as [[_ B] | [(_ & r & err & _ & B) | [(_ & _ & B)
       | [(Hci & Hp & _ & B) | (Hci & Hp & err & _ & B)]]]];
    rewrite B in H; simpl in H;
    unfold logHasToBeKept, logUnexpected, logHasToBeDeleted, logWasDeleted,
           logFailedToDelete, logSkippingRecord, recordDeletion in H;
    repeat (destruct H as [H | H]; try discriminate H); try contradiction;
    injection H as <- <- <- <- <-;
    (split; [reflexivity |]); (split; [reflexivity |]); (split; [reflexivity |]);
    exists recordsIter; auto.
Qed.

Lemma record_delete_requires_listed_unresolved_ci_record_witness :
  "root_dns_zone_rg" = "root_dns_zone_rg" /\
  "azure.gigantic.io" = "azure.gigantic.io" /\ dns.NS = dns.NS /\
  exists recordsIter,
    dnsRecordSetsClient_ListAllByDNSZoneComplete exampleQuiet resourceGroup zoneName
      = (recordsIter, None) /\
    In {| dns.Name := "e2eabcd.westeurope"; dns.Etag := "etag-2" |} recordsIter /\
    isCIRecord "e2eabcd.westeurope" = true /\
    fst (@resolvesApiName exampleWorld "e2eabcd.westeurope") = (false, None).
Proof.
  apply (@record_delete_requires_listed_unresolved_ci_record
           exampleWorld exampleQuiet 0).
  vm_compute. do 5 right. left. reflexivity.
Defined.

(** X9. In the trace of a pass, every request to delete a record comes
    right after the lookup of the record's API host name on 8.8.8.8 and
    the line that announces the deletion: no record is deleted without its
    host name having been probed in the same iteration. *)
Theorem record_delete_follows_lookup {W : Collaborators}
        (c : Cleaner) (now : Z) (t1 t2 : Trace) (record : dns.RecordSet) :
  snd (cleanDelegateDNSRecords c now) = t1 ++ recordDeletion record :: t2 ->
  exists t0,
    t1 = t0 ++ [LookupHost ["8.8.8.8"] 5 (apiName (dns.Name record));
                logHasToBeDeleted (dns.Name record)].
Proof.
  rewrite cleanDelegateDNSRecords_eq.
  destruct (dnsRecordSetsClient_ListAllByDNSZoneComplete c _ _)
    as [recordsIter [err|]]; simpl; intros E.
  - destruct t1 as [|e [|e' t1]]; discriminate.
  - destruct t1 as [|e t1]; [discriminate |].
    injection E as <- E.
    apply cleanDelegateDNSRecordsLoop_guarded in E. destruct E as [t0 ->].
    exists (RecordSetsListAllByDNSZone resourceGroup zoneName :: t0).
    reflexivity.
Qed.

Lemma record_delete_follows_lookup_witness :
  exists t0,
    [RecordSetsListAllByDNSZone "root_dns_zone_rg" "azure.gigantic.io";
     LookupHost ["8.8.8.8"] 5 "api.e2eterraform-xyz.azure.gigantic.io";
     logHasToBeKept "e2eterraform-xyz";
     LookupHost ["8.8.8.8"] 5 "api.e2eabcd.westeurope.azure.gigantic.io";
     logHasToBeDeleted "e2eabcd.westeurope"]
    = t0 ++ [LookupHost ["8.8.8.8"] 5
                        (apiName (dns.Name {| dns.Name := "e2eabcd.westeurope";
                                              dns.Etag := "etag-2" |}));
             logHasToBeDeleted (dns.Name {| dns.Name := "e2eabcd.westeurope";
                                            dns.Etag := "etag-2" |})].
Proof.
  apply (@record_delete_follows_lookup exampleWorld exampleQuiet 0
           [RecordSetsListAllByDNSZone "root_dns_zone_rg" "azure.gigantic.io";
            LookupHost ["8.8.8.8"] 5 "api.e2eterraform-xyz.azure.gigantic.io";
            logHasToBeKept "e2eterraform-xyz";
            LookupHost ["8.8.8.8"] 5 "api.e2eabcd.westeurope.azure.gigantic.io";
            logHasToBeDeleted "e2eabcd.westeurope"]
           [logWasDeleted "e2eabcd.westeurope";
            LookupHost ["8.8.8.8"] 5 "api.e2eterraform-old.azure.gigantic.io";
            @logUnexpected exampleWorld "e2eterraform-old" "i/o timeout";
            logHasToBeKept "e2eterraform-old";
            logHasToBeKept "www"]
           {| dns.Name := "e2eabcd.westeurope"; dns.Etag := "etag-2" |}).
  vm_compute. reflexivity.
Defined.

(** X10. The pass over the records returns nil exactly when the listing
    succeeded and no requested deletion failed: for every record of the
    listing with a CI name whose host name does not resolve, the deletion
    returned no error. *)
Theorem dns_pass_nil_iff_no_failed_deletion {W : Collaborators}
        (c : Cleaner) (now : Z) :
  fst (cleanDelegateDNSRecords c now) = None <->
  exists recordsIter,
    dnsRecordSetsClient_ListAllByDNSZoneComplete c resourceGroup zoneName
      = (recordsIter, None) /\
    forall record,
      In record recordsIter ->
      isCIRecord (dns.Name record) = true ->
      fst (resolvesApiName (dns.Name record)) = (false, None) ->
      dnsRecordSetsClient_Delete c resourceGroup zoneName (dns.Name record)
                                 dns.NS (dns.Etag record) = None.
Proof.
  rewrite cleanDelegateDNSRecords_eq.
  destruct (dnsRecordSetsClient_ListAllByDNSZoneComplete c _ _)
    as [recordsIter [err|]]; simpl.
  - split; [discriminate | intros (l & H & _); discriminate].
  - rewrite cleanDelegateDNSRecordsLoop_result.
    assert (lastFailure c (now - gracePeriod) recordsIter = None <->
            forall record,
              In record recordsIter ->
              isCIRecord (dns.Name record) = true ->
              fst (resolvesApiName (dns.Name record)) = (false, None) ->
              dnsRecordSetsClient_Delete c resourceGroup zoneName (dns.Name record)
                                         dns.NS (dns.Etag record) = None) as Hiff.
    { rewrite lastFailure_None. split.
      - intros H record Hin Hci Hp. specialize (H record Hin).
        rewrite deleteFailure_eq, Hci, Hp in H. assumption.
      - intros H record Hin. rewrite deleteFailure_eq.
        destruct (isCIRecord (dns.Name record)) eqn:Hci; [| reflexivity].
        destruct (fst (resolvesApiName (dns.Name record))) as [[|] [e|]] eqn:Hp;
          auto. }
    destruct (lastFailure c (now - gracePeriod) recordsIter) as [e|]; simpl.
    + split; [discriminate |]. intros (l & [= <-] & H).
      apply Hiff in H. discriminate.
    + split; [| reflexivity]. intros _. exists recordsIter.
      split; [reflexivity |]. apply Hiff. reflexivity.
Qed.

(** X11. An error returned by the pass over the records is the masked
    error of the listing, or the masked error of the deletion of a record
    of the listing that was asked for and failed, no deletion having failed
    for the records after it: errors of the resolver are never returned. *)
Theorem dns_pass_error_is_listing_or_last_failed_delete {W : Collaborators}
        (c : Cleaner) (now : Z) (e : error) :
  fst (cleanDelegateDNSRecords c now) = Some e ->
  (exists recordsIter err,
      dnsRecordSetsClient_ListAllByDNSZoneComplete c resourceGroup zoneName
        = (recordsIter, Some err) /\
      e = Mask err) \/
  (exists before record after err,
      dnsRecordSetsClient_ListAllByDNSZoneComplete c resourceGroup zoneName
        = (before ++ record :: after, None) /\
      e = Mask err /\
      isCIRecord (dns.Name record) = true /\
      fst (resolvesApiName (dns.Name record)) = (false, None) /\
      dnsRecordSetsClient_Delete c resourceGroup zoneName (dns.Name record)
                                 dns.NS (dns.Etag record) = Some err /\
      forall record',
        In record' after -> deleteFailure c (now - gracePeriod) record' = None).
Proof.
  rewrite cleanDelegateDNSRecords_eq.
  destruct (dnsRecordSetsClient_ListAllByDNSZoneComplete c _ _)
    as [recordsIter [err|]]; simpl.
  - intros [= <-]. left. exists recordsIter, err. auto.
  - rewrite cleanDelegateDNSRecordsLoop_result.
    destruct (lastFailure c (now - gracePeriod) recordsIter) as [err|] eqn:Hl;
      simpl; [| discriminate].
    intros [= <-]. right. apply lastFailure_Some in Hl.
    destruct Hl as (before & record & after & -> & Hf & Hn).
    exists before, record, after, err.
    rewrite deleteFailure_eq in Hf.
    destruct (isCIRecord (dns.Name record)); [| discriminate].
    destruct (fst (resolvesApiName (dns.Name record))) as [[|] [e'|]];
      try discriminate.
    auto 10.
Qed.

Lemma dns_pass_error_is_listing_or_last_failed_delete_witness :
  (exists recordsIter err,
      dnsRecordSetsClient_ListAllByDNSZoneComplete exampleRecordsFail
        resourceGroup zoneName = (recordsIter, Some err) /\
      "precondition failed: e2eabcd.westeurope" = @Mask exampleWorld err) \/
  (exists before record after err,
      dnsRecordSetsClient_ListAllByDNSZoneComplete exampleRecordsFail
        resourceGroup zoneName = (before ++ record :: after, None) /\
      "precondition failed: e2eabcd.westeurope" = @Mask exampleWorld err /\
      isCIRecord (dns.Name record) = true /\
      fst (@resolvesApiName exampleWorld (dns.Name record)) = (false, None) /\
      dnsRecordSetsClient_Delete exampleRecordsFail resourceGroup zoneName
        (dns.Name record) dns.NS (dns.Etag record) = Some err /\
      forall record',
        In record' after ->
        deleteFailure exampleRecordsFail (0 - gracePeriod) record' = None).
Proof.
  apply (@dns_pass_error_is_listing_or_last_failed_delete
           exampleWorld exampleRecordsFail 0
           "precondition failed: e2eabcd.westeurope").
  vm_compute. reflexivity.
Defined.

(** X12. The pass looks up exactly the records of the listing with a CI
    name, once each and in the order of the listing, always on the
    resolver 8.8.8.8 with five retries and under the host name
    [api.<name>.azure.gigantic.io]; names that are not CI names are never
    looked up. *)
Theorem dns_pass_looks_up_exactly_ci_records {W : Collaborators}
        (c : Cleaner) (now : Z) (recordsIter : list dns.RecordSet) :
  dnsRecordSetsClient_ListAllByDNSZoneComplete c resourceGroup zoneName
    = (recordsIter, None) ->
  filter isLookupHost (snd (cleanDelegateDNSRecords c now)) =
  map (fun record =>
         LookupHost ["8.8.8.8"] 5 ("api." ++ dns.Name record ++ ".azure.gigantic.io"))
      (filter (fun record => isCIRecord (dns.Name record)) recordsIter).
Proof.
  intros Hl. rewrite cleanDelegateDNSRecords_eq, Hl. simpl.
  rewrite cleanDelegateDNSRecordsLoop_trace.
  apply cleanDelegateDNSRecords_lookups.
Qed.

Lemma dns_pass_looks_up_exactly_ci_records_witness :
  filter isLookupHost (snd (cleanDelegateDNSRecords exampleQuiet 0)) =
  [LookupHost ["8.8.8.8"] 5 "api.e2eterraform-xyz.azure.gigantic.io";
   LookupHost ["8.8.8.8"] 5 "api.e2eabcd.westeurope.azure.gigantic.io";
   LookupHost ["8.8.8.8"] 5 "api.e2eterraform-old.azure.gigantic.io"].
Proof.
  rewrite (@dns_pass_looks_up_exactly_ci_records exampleWorld exampleQuiet 0
             [ {| dns.Name := "e2eterraform-xyz"; dns.Etag := "etag-1" |};
               {| dns.Name := "e2eabcd.westeurope"; dns.Etag := "etag-2" |};
               {| dns.Name := "e2eterraform-old"; dns.Etag := "etag-3" |};
               {| dns.Name := "www"; dns.Etag := "etag-4" |} ]).
  - vm_compute. reflexivity.
  - reflexivity.
Defined.


Lemma lastFailure_app {W : Collaborators} (c : Cleaner) (deadLine : Z)
      (recordsIter1 recordsIter2 : list dns.RecordSet) :
  lastFailure c deadLine (recordsIter1 ++ recordsIter2) =
  match lastFailure c deadLine recordsIter2 with
  | Some err => Some err
  | None => lastFailure c deadLine recordsIter1
  end.
Proof.
  induction recordsIter1 as [|record recordsIter1 IH]; simpl.
  - destruct (lastFailure c deadLine recordsIter2); reflexivity.
  - rewrite IH.
    destruct (lastFailure c deadLine recordsIter2); [reflexivity |].
    destruct (lastFailure c deadLine recordsIter1); reflexivity.
Qed.

(** X13. The loop over a listing of records made of two parts is the loop
    over the first part followed by the loop over the second, which starts
    from the [lastError] the first part left: the error of its last failed
    deletion if there was one. *)
Theorem cleanDelegateDNSRecordsLoop_app {W : Collaborators}
        (c : Cleaner) (deadLine : Z) (lastError : option error)
        (recordsIter1 recordsIter2 : list dns.RecordSet) :
  let lastError' :=
    match lastFailure c deadLine recordsIter1 with
    | Some err => Some err
    | None => lastError
    end in
  cleanDelegateDNSRecordsLoop c deadLine lastError (recordsIter1 ++ recordsIter2) =
  (fst (cleanDelegateDNSRecordsLoop c deadLine lastError' recordsIter2),
   flat_map (fun record =>
               snd (cleanDelegateDNSRecordsBody c deadLine None record))
            recordsIter1
     ++ snd (cleanDelegateDNSRecordsLoop c deadLine lastError' recordsIter2)).
Proof.
  intros lastError'.
  rewrite (surjective_pairing
             (cleanDelegateDNSRecordsLoop c deadLine lastError
                                          (recordsIter1 ++ recordsIter2))).
  rewrite !cleanDelegateDNSRecordsLoop_result, !cleanDelegateDNSRecordsLoop_trace.
  rewrite flat_map_app, lastFailure_app. subst lastError'.
  destruct (lastFailure c deadLine recordsIter2); [reflexivity |].
  destruct (lastFailure c deadLine recordsIter1); reflexivity.
Qed.

(** X14. [dnsRecordShouldBeDeleted] returns a nil error for every record,
    whatever the resolver answers; so the branch of the loop that handles
    its error is never taken, and no pass logs "failed to check DNS
    record". *)
Theorem dns_check_never_fails {W : Collaborators}
        (c : Cleaner) (now since : Z) (dnsRecord : dns.RecordSet)
        (name : string) (err : error) :
  snd (fst (dnsRecordShouldBeDeleted c dnsRecord since)) = None /\
  ~ In (logFailedToCheck name err) (snd (cleanDelegateDNSRecords c now)).
Proof.
  split; [apply dnsRecordShouldBeDeleted_no_error |].
  intros H. apply cleanDelegateDNSRecords_trace in H.
  destruct H as [E | (recordsIter & record & _ & _ & H)]; [discriminate |].
  destruct (cleanDelegateDNSRecordsBody_cases c (now - gracePeriod) None record)
    as [[_ B] | [(_ & r & err' & _ & B) | [(_ & _ & B)
       | [(_ & _ & _ & B) | (_ & _ & err' & _ & B)]]]];
    rewrite B in H; simpl in H;
    unfold logHasToBeKept, logUnexpected, logHasToBeDeleted, logWasDeleted,
           logFailedToDelete, logSkippingRecord, recordDeletion,
           logFailedToCheck in H;
    simpl in H;
    repeat (destruct H as [H | H]; try discriminate H); contradiction.
Qed.

(** The lookups and the deletions of an iteration bear the name of its
    record, and that name is a CI name. *)
Lemma cleanDelegateDNSRecordsBody_names {W : Collaborators}
      (c : Cleaner) (deadLine : Z) (lastError : option error)
      (record : dns.RecordSet) (e : Event) :
  In e (snd (cleanDelegateDNSRecordsBody c deadLine lastError record)) ->
  (forall servers retryTimes name,
      e = LookupHost servers retryTimes (apiName name) ->
      name = dns.Name record /\ isCIRecord name = true) /\
  (forall rg zone name recordType etag,
      e = RecordSetsDelete rg zone name recordType etag ->
      name = dns.Name record /\ isCIRecord name = true).
Proof.
  intros H.
  destruct (cleanDelegateDNSRecordsBody_cases c deadLine lastError record)
    as [[Hr B] | [(Hr & r & err' & _ & B) | [(Hr & _ & B)
       | [(Hr & _ & _ & B) | (Hr & _ & err' & _ & B)]]]];
    rewrite B in H; cbn [snd In] in H;
    unfold logHasToBeKept, logUnexpected, logHasToBeDeleted, logWasDeleted,
           logFailedToDelete, logSkippingRecord, recordDeletion in H;
    repeat (destruct H as [H | H]; [subst e |]); try contradiction;
    (split; [intros s0 r0 n E | intros g z n t x E]);
    match type of E with
    | LookupHost _ _ (apiName ?n1) = LookupHost _ _ (apiName ?n2) =>
        assert (apiName n1 = apiName n2) as HE by congruence;
        apply apiName_inj in HE; subst; auto
    | RecordSetsDelete _ _ _ _ _ = RecordSetsDelete _ _ _ _ _ =>
        injection E; intros; subst; auto
    | _ => discriminate E
    end.
Qed.

(** X15. A record whose name does not start with "e2e" is not a CI record:
    the pass never looks its host name up and never asks for its deletion,
    whatever its etag. *)
Theorem record_without_e2e_prefix_untouched {W : Collaborators}
        (c : Cleaner) (now : Z) (name : string)
        (servers : list string) (retryTimes : Z)
        (rg zone : string) (recordType : dns.RecordType) (etag : string) :
  strings.HasPrefix name "e2e" = false ->
  isCIRecord name = false /\
  ~ In (LookupHost servers retryTimes (apiName name))
       (snd (cleanDelegateDNSRecords c now)) /\
  ~ In (RecordSetsDelete rg zone name recordType etag)
       (snd (cleanDelegateDNSRecords c now)).
Proof.
  intros Hp.
  assert (isCIRecord name = false) as Hci.
  { destruct (isCIRecord name) eqn:E; [| reflexivity].
    apply isCIRecord_e2e in E. congruence. }
  split; [exact Hci |].
  split; intros H; apply cleanDelegateDNSRecords_trace in H;
    (destruct H as [E | (recordsIter & record & _ & _ & H)]; [discriminate |]);
    apply cleanDelegateDNSRecordsBody_names in H; destruct H as [H1 H2].
  - destruct (H1 _ _ _ eq_refl) as [_ H]. congruence.
  - destruct (H2 _ _ _ _ _ eq_refl) as [_ H]. congruence.
Qed.

Lemma record_without_e2e_prefix_untouched_witness :
  isCIRecord "www" = false /\
  ~ In (LookupHost ["8.8.8.8"] 5 (apiName "www"))
       (snd (cleanDelegateDNSRecords exampleQuiet 0)) /\
  ~ In (RecordSetsDelete resourceGroup zoneName "www" dns.NS "etag-4")
       (snd (cleanDelegateDNSRecords exampleQuiet 0)).
Proof.
  apply (@record_without_e2e_prefix_untouched exampleWorld exampleQuiet 0 "www").
  reflexivity.
Defined.

(** * The name filters and the SERVFAIL test, as shapes of strings *)

(** X16. [groupHasTestNamePrefix] accepts exactly the names that are "ci-"
    or "e2e" followed by anything, the empty rest included; the test is
    case-sensitive and looks at nothing but the first three characters. *)
Theorem groupHasTestNamePrefix_iff_shape (group : resources.Group) :
  groupHasTestNamePrefix group = true <->
  exists rest,
    resources.Name group = ("ci-" ++ rest)%string \/
    resources.Name group = ("e2e" ++ rest)%string.
Proof.
  rewrite groupHasTestNamePrefix_eq, orb_true_iff.
  unfold strings.HasPrefix. rewrite !strings_shape.prefix_iff.
  split.
  - intros [[rest H] | [rest H]]; exists rest; auto.
  - intros [rest [H | H]]; [left | right]; exists rest; assumption.
Qed.

(** X17. [resolvesApiName] returns a nil error exactly when the resolver
    returned no error or an error whose message holds "SERVFAIL" somewhere,
    at the start, in the middle or at the end; an error it does return is
    the resolver's own, unmasked. *)
Theorem resolution_error_surfaces_iff_no_servfail {W : Collaborators}
        (name : string) :
  let answer := dns_resolver_LookupHost [dnsServerAddress] 5 (apiName name) in
  (snd (fst (resolvesApiName name)) = None <->
   snd answer = None \/
   exists err pre post,
     snd answer = Some err /\ Error err = (pre ++ "SERVFAIL" ++ post)%string) /\
  (forall err, snd (fst (resolvesApiName name)) = Some err -> snd answer = Some err).
Proof.
  intros answer. subst answer. rewrite resolvesApiName_eq. simpl.
  destruct (dns_resolver_LookupHost _ _ _) as [addresses [err|]]; simpl.
  - destruct (strings.Contains (Error err) dnsFailureError) eqn:Hc; simpl.
    + split; [| discriminate]. split; [| reflexivity]. intros _. right.
      apply strings_shape.Contains_iff in Hc. destruct Hc as (pre & post & Hc).
      exists err, pre, post. auto.
    + split; [| auto]. split; [discriminate |].
      intros [H | (err' & pre & post & [= <-] & H)]; [discriminate |].
      assert (strings.Contains (Error err) dnsFailureError = true) as Ht.
      { apply strings_shape.Contains_iff. exists pre, post. assumption. }
      congruence.
  - split; [| discriminate]. split; auto.
Qed.
